(** * The pipeline designer of the aiXplain SDK

    A shallow embedding of [aixplain/api/pipeline.py] (class [Pipeline]) and
    of the enumerations of [designer/enums.py], with the properties of the
    structural validator, the serializer and the save / run life cycle. *)

From Stdlib Require Import ZArith Lia.
From stdpp Require Import base option list gmap strings.

Set Warnings "-register-all".

Local Open Scope Z_scope.
Local Open Scope string_scope.
Local Open Scope list_scope.

(** ** Enumerations ([enums.py]) *)

Inductive RouteType := CHECK_TYPE | CHECK_VALUE.

Inductive Operation :=
  | GREATER_THAN | GREATER_THAN_OR_EQUAL | LESS_THAN | LESS_THAN_OR_EQUAL
  | EQUAL | DIFFERENT | CONTAIN | NOT_CONTAIN.

Inductive NodeType :=
  | ASSET | INPUT | OUTPUT | SCRIPT | SEGMENTOR | RECONSTRUCTOR | ROUTER
  | DECISION.

(** The members are [str] subclasses; this is the string each one carries. *)
Definition RouteType_value (t : RouteType) : string :=
  match t with CHECK_TYPE => "checkType" | CHECK_VALUE => "checkValue" end.

Definition Operation_value (o : Operation) : string :=
  match o with
  | GREATER_THAN => "greaterThan"
  | GREATER_THAN_OR_EQUAL => "greaterThanOrEqual"
  | LESS_THAN => "lessThan"
  | LESS_THAN_OR_EQUAL => "lessThanOrEqual"
  | EQUAL => "equal"
  | DIFFERENT => "different"
  | CONTAIN => "contain"
  | NOT_CONTAIN => "notContain"
  end.

Definition NodeType_value (t : NodeType) : string :=
  match t with
  | ASSET => "ASSET" | INPUT => "INPUT" | OUTPUT => "OUTPUT"
  | SCRIPT => "SCRIPT" | SEGMENTOR => "SEGMENT"
  | RECONSTRUCTOR => "RECONSTRUCT" | ROUTER => "ROUTER"
  | DECISION => "DECISION"
  end.

#[global] Instance NodeType_eq_dec : EqDecision NodeType.
Proof. solve_decision. Defined.

(** ** Exceptions and results

    [pipeline.py] raises [ValueError] only; [KeyError], [TypeError] and
    [AttributeError] are what [pop], subscripting and iteration raise inside
    [to_dict] on data of the wrong shape; [RemoteError] stands for whatever
    the submission collaborator raises. *)

Inductive exn :=
  | ValueError (msg : string)
  | KeyError (key : string)
  | TypeError (msg : string)
  | AttributeError (name : string)
  | RemoteError (msg : string).

Inductive result (A : Type) :=
  | Return (a : A)
  | Raise (e : exn).
Arguments Return {A} a.
Arguments Raise {A} e.

#[global] Instance result_ret : MRet result := @Return.

#[global] Instance result_bind : MBind result := fun A B k r =>
  match r with
  | Return a => k a
  | Raise e => Raise e
  end.

(** A [for] loop whose body may raise: the first exception ends the loop. *)
Fixpoint for_each {A} (body : A -> result unit) (l : list A) : result unit :=
  match l with
  | [] => Return tt
  | a :: l' => body a ;; for_each body l'
  end.

(** ** Plain data: what [dataclasses.asdict] returns

    A Python [dict] keeps its keys in insertion order; it is an association
    list without repeated keys. *)

Inductive pyval :=
  | PNone
  | PInt (z : Z)
  | PStr (s : string)
  | PList (l : list pyval)
  | PDict (d : list (string * pyval)).

Abbreviation pydict := (list (string * pyval)).

(** [d.get(key)], [del d[key]], [d.pop(key)] and [d[key] = v] on a [dict]
    with string keys. *)
Section Dict.

Context {V : Type}.

Fixpoint dict_get (key : string) (d : list (string * V)) : option V :=
  match d with
  | [] => None
  | (k, v) :: d' => if decide (k = key) then Some v else dict_get key d'
  end.

Fixpoint dict_del (key : string) (d : list (string * V)) : list (string * V) :=
  match d with
  | [] => []
  | (k, v) :: d' => if decide (k = key) then d' else (k, v) :: dict_del key d'
  end.

Definition dict_pop (key : string) (d : list (string * V))
    : result (V * list (string * V)) :=
  match dict_get key d with
  | Some v => Return (v, dict_del key d)
  | None => Raise (KeyError key)
  end.

Fixpoint dict_set (key : string) (v : V) (d : list (string * V))
    : list (string * V) :=
  match d with
  | [] => [(key, v)]
  | (k, w) :: d' =>
      if decide (k = key) then (k, v) :: d' else (k, w) :: dict_set key v d'
  end.

End Dict.

(** ** The data model

    [pipeline.py] imports [Node], [Link] and the node variants from modules
    that are not part of the sources ([base.py], [nodes.py]); their
    attributes are the ones [pipeline.py] reads ([number], [label], [type],
    [from_node], [to_node], the keys [paramMapping], [from_param],
    [to_param]) together with section 3 of the specification. *)

(** A keyword argument of a node constructor: plain data, or the list of
    routes that [router] builds. *)
Inductive Kwarg (R : Type) : Type :=
  | KwData (v : pyval)
  | KwRoutes (rs : list R).
Arguments KwData {R} v.
Arguments KwRoutes {R} rs.

Section DataModel.

(** [DataType] is imported by [pipeline.py] but defined in none of the
    sources: it stays abstract. *)
Context {DataType : Type}.

(** Modelled from the spec: a node has a [number], a [label], a [type]; the
    keyword configuration it was built with is kept as an open mapping.  A
    [Route] lives inside a router node and its [path] holds nodes. *)
Inductive Node : Type :=
  mkNode {
    number : Z;
    label : string;
    type : NodeType;
    config : list (string * Kwarg Route) }

with Route : Type :=
  mkRoute {
    route_value : DataType;
    route_path : list Node;
    route_type : RouteType;
    route_operation : Operation }.

(** Modelled from the spec: one entry of a link's parameter mapping. *)
Record ParamMapping : Type :=
  mkParamMapping {
    from_param : string;
    to_param : string }.

(** Modelled from the spec: a directed edge between two node numbers. *)
Record Link : Type :=
  mkLink {
    from_node : Z;
    to_node : Z;
    paramMapping : list ParamMapping }.

End DataModel.

Arguments Node : clear implicits.
Arguments Route : clear implicits.

(** ** The pipeline ([pipeline.py]) *)

Section Pipeline.

Context {DataType Handle : Type}.

(** [instance] is declared [InitVar[any] = None]: a class attribute that is
    [None] until [save] assigns the handle. *)
Record Pipeline : Type :=
  mkPipeline {
    nodes : list (Node DataType);
    links : list Link;
    instance : option Handle }.

(** *** [validate] *)

(** [{link.from_node: link for link in self.links}]: a later link with the
    same key replaces the earlier one. *)
Definition link_from_map (ls : list Link) : gmap Z Link :=
  foldl (fun m link => <[from_node link := link]> m) ∅ ls.

Definition link_to_map (ls : list Link) : gmap Z Link :=
  foldl (fun m link => <[to_node link := link]> m) ∅ ls.

(** [key not in d]. *)
Definition not_in (key : Z) (d : gmap Z Link) : bool :=
  match d !! key with
  | None => true
  | Some _ => false
  end.

(** The body of the loop over [self.nodes]. *)
Definition validate_node (from_map to_map : gmap Z Link)
    (node : Node DataType) : result unit :=
  if decide (type node = INPUT) then
    if not_in (number node) from_map
    then Raise (ValueError ("Input node " +:+ label node +:+ " not linked out"))
    else Return tt
  else if decide (type node = OUTPUT) then
    if not_in (number node) to_map
    then Raise (ValueError ("Output node " +:+ label node +:+ " not linked in"))
    else Return tt
  else
    (if not_in (number node) from_map
     then Raise (ValueError ("Node " +:+ label node +:+ " not linked in"))
     else Return tt) ;;
    (if not_in (number node) to_map
     then Raise (ValueError ("Node " +:+ label node +:+ " not linked out"))
     else Return tt).

Definition validate (self : Pipeline) : result unit :=
  let from_map := link_from_map (links self) in
  let to_map := link_to_map (links self) in
  for_each (validate_node from_map to_map) (nodes self).

(** *** [to_dict] *)

(** Truth value of plain data, as [or] tests it. *)
Definition truthy (v : pyval) : bool :=
  match v with
  | PNone => false
  | PInt z => negb (Z.eqb z 0)
  | PStr s => negb (String.eqb s "")
  | PList l => match l with [] => false | _ => true end
  | PDict d => match d with [] => false | _ => true end
  end.

(** [dataclasses.asdict]: a fresh [dict] per dataclass instance, one key per
    field in declaration order, and a fresh list per list.  What it makes of
    a node depends on the node classes, which are not part of the sources:
    [asdict_Node] stays a parameter. *)
Context (asdict_Node : Node DataType -> pyval).

Definition asdict_ParamMapping (pm : ParamMapping) : pyval :=
  PDict [("from_param", PStr (from_param pm));
         ("to_param", PStr (to_param pm))].

Definition asdict_Link (link : Link) : pyval :=
  PDict [("from_node", PInt (from_node link));
         ("to_node", PInt (to_node link));
         ("paramMapping", PList (asdict_ParamMapping <$> paramMapping link))].

Definition asdict (self : Pipeline) : pydict :=
  [("nodes", PList (asdict_Node <$> nodes self));
   ("links", PList (asdict_Link <$> links self))].

(** What [v.pop(key)] raises when [v] is no dict: a list wants an index,
    anything else here has no [pop]. *)
Definition no_pop (v : pyval) : exn :=
  match v with
  | PList _ => TypeError "pop"
  | _ => AttributeError "pop"
  end.

(** [d[new] = d.pop(old)] *)
Definition rename_key (old new : string) (d : pydict) : result pydict :=
  '(v, d') ← dict_pop old d; Return (dict_set new v d').

(** The body of the inner loop; [param] has to be a [dict] to have [pop]. *)
Definition to_dict_param (param : pyval) : result pyval :=
  match param with
  | PDict d =>
      d ← rename_key "from_param" "from" d;
      d ← rename_key "to_param" "to" d;
      Return (PDict d)
  | _ => Raise (no_pop param)
  end.

(** The body of the outer loop.  The renamed entries are the very objects
    held by the list under [paramMapping]: the update shows there.  A true
    value that is no list is a number, which cannot be looped over, or a
    string or a dict, whose characters or keys have no [pop]. *)
Definition to_dict_link (link : pyval) : result pyval :=
  match link with
  | PDict d =>
      d ← rename_key "from_node" "from" d;
      d ← rename_key "to_node" "to" d;
      match dict_get "paramMapping" d with
      | None => Return (PDict d)
      | Some v =>
          if truthy v then
            match v with
            | PList params =>
                params ← mapM to_dict_param params;
                Return (PDict (dict_set "paramMapping" (PList params) d))
            | PInt _ => Raise (TypeError "iter")
            | _ => Raise (AttributeError "pop")
            end
          else Return (PDict d)
      end
  | _ => Raise (no_pop link)
  end.

Definition to_dict (self : Pipeline) : result pyval :=
  let obj := asdict self in
  match dict_get "links" obj with
  | Some (PList ls) =>
      ls ← mapM to_dict_link ls;
      Return (PDict (dict_set "links" (PList ls) obj))
  | Some _ => Raise (TypeError "iter")
  | None => Raise (KeyError "links")
  end.

(** *** [save] and [run]

    The outside world, as far as the pipeline sees it: [uuid.uuid4()] draws
    from a source of randomness, [PipelineFactory.create] is the submission
    collaborator, a stored handle has a [run] operation.  [submitted]
    records the calls made to the collaborator, oldest first. *)

Record World : Type :=
  mkWorld {
    entropy : nat;
    submitted : list (string * pyval) }.

Context {RunArgs RunOutcome : Type}.
Context (uuid4 : nat -> string).
Context (PipelineFactory_create : World -> string -> pyval -> result Handle).
(** [bool(handle)], as [not self.instance] tests it. *)
Context (handle_bool : Handle -> bool).
(** The handle's own [run], applied to every argument [run] was given: the
    value it returns or the exception it raises, passed on untouched. *)
Context (handle_run : Handle -> RunArgs -> RunOutcome).

Definition set_instance (self : Pipeline) (h : Handle) : Pipeline :=
  {| nodes := nodes self; links := links self; instance := Some h |}.

(** [save] returns its result, the pipeline object after the call and the
    world after the call. *)
Definition save (self : Pipeline) (w : World)
    : result Pipeline * Pipeline * World :=
  match validate self with
  | Raise e => (Raise e, self, w)
  | Return _ =>
      let name := "pipeline-" +:+ uuid4 (entropy w) in
      let w := {| entropy := S (entropy w); submitted := submitted w |} in
      match to_dict self with
      | Raise e => (Raise e, self, w)
      | Return graph =>
          let w' := {| entropy := entropy w;
                       submitted := submitted w ++ [(name, graph)] |} in
          match PipelineFactory_create w name graph with
          | Raise e => (Raise e, self, w')
          | Return h => (Return (set_instance self h), set_instance self h, w')
          end
      end
  end.

Definition run (self : Pipeline) (args : RunArgs) : result RunOutcome :=
  match instance self with
  | None => Raise (ValueError "Pipeline not saved")
  | Some h =>
      if handle_bool h then Return (handle_run h args)
      else Raise (ValueError "Pipeline not saved")
  end.

(** *** [router] *)

(** Modelled from the spec: the number a node takes when it is attached
    without one, the largest number in the pipeline plus one, or 1. *)
Definition next_number (self : Pipeline) : Z :=
  foldr (fun node acc => Z.max (number node) acc) 0 (nodes self) + 1.

(** The label of a node built without one is derived from its type and its
    number; the sources do not say how. *)
Context (default_label : NodeType -> Z -> string).

(** Modelled from the spec: the [Router] node variant of [nodes.py], which is
    not part of the sources.  The constructor recognises [number] and
    [label], keeps every other keyword as configuration, and attaches the
    node to the pipeline it is given: the node is appended to [nodes].  The
    specification gives positional arguments no meaning. *)
Definition Router (self : Pipeline) (args : list (Kwarg (Route DataType)))
    (kwargs : list (string * Kwarg (Route DataType)))
    : Node DataType * Pipeline :=
  let num :=
    match dict_get "number" kwargs with
    | Some (KwData (PInt n)) => n
    | _ => next_number self
    end in
  let lbl :=
    match dict_get "label" kwargs with
    | Some (KwData (PStr s)) => s
    | _ => default_label ROUTER num
    end in
  let config := dict_del "number" (dict_del "label" kwargs) in
  let node := mkNode num lbl ROUTER config in
  (node, {| nodes := nodes self ++ [node]; links := links self;
            instance := instance self |}).

Definition router (self : Pipeline) (routes : list (DataType * Node DataType))
    (args : list (Kwarg (Route DataType)))
    (kwargs : list (string * Kwarg (Route DataType)))
    : Node DataType * Pipeline :=
  let kwargs :=
    dict_set "routes"
      (KwRoutes ((fun route => mkRoute route.1 [route.2] CHECK_TYPE EQUAL)
                 <$> routes))
      kwargs in
  Router self args kwargs.

End Pipeline.

Arguments Pipeline : clear implicits.

(** ** The same serializer over a store of objects

    [to_dict] renames keys by updating dicts in place.  To see which objects
    it updates, objects live in a store and are referred to by location; a
    new object takes the next free location.  Numbers, strings, [None] and
    enumeration members are immutable and are held directly. *)

Module Store.

Inductive val :=
  | VNone
  | VInt (z : Z)
  | VStr (s : string)
  | VRef (l : nat).

(** A [dict] with string keys, a [list], or an instance of a dataclass with
    its fields in declaration order. *)
Inductive obj :=
  | ODict (items : list (string * val))
  | OList (elems : list val)
  | OInstance (cls : string) (fields : list (string * val)).

Abbreviation heap := (list obj).

Definition alloc (o : obj) (h : heap) : val * heap :=
  (VRef (length h), h ++ [o]).

(** [dataclasses.asdict] is a recursive copy: a dataclass instance or a dict
    becomes a new dict, a list a new list, after their components have been
    copied; immutable values are returned as they are.  On a cyclic object
    graph the recursion does not end: the model runs with [fuel]. *)
Fixpoint copy_items (copy : val -> heap -> option (val * heap))
    (items : list (string * val)) (h : heap)
    : option (list (string * val) * heap) :=
  match items with
  | [] => Some ([], h)
  | (k, v) :: items =>
      match copy v h with
      | Some (v', h) =>
          match copy_items copy items h with
          | Some (items', h) => Some ((k, v') :: items', h)
          | None => None
          end
      | None => None
      end
  end.

Fixpoint copy_elems (copy : val -> heap -> option (val * heap))
    (elems : list val) (h : heap) : option (list val * heap) :=
  match elems with
  | [] => Some ([], h)
  | v :: elems =>
      match copy v h with
      | Some (v', h) =>
          match copy_elems copy elems h with
          | Some (elems', h) => Some (v' :: elems', h)
          | None => None
          end
      | None => None
      end
  end.

Fixpoint asdict_inner (fuel : nat) (v : val) (h : heap)
    : option (val * heap) :=
  match fuel with
  | O => None
  | S fuel =>
      match v with
      | VRef l =>
          match h !! l with
          | Some (OInstance _ items) | Some (ODict items) =>
              match copy_items (asdict_inner fuel) items h with
              | Some (items', h) => Some (alloc (ODict items') h)
              | None => None
              end
          | Some (OList elems) =>
              match copy_elems (asdict_inner fuel) elems h with
              | Some (elems', h) => Some (alloc (OList elems') h)
              | None => None
              end
          | None => None
          end
      | _ => Some (v, h)
      end
  end.

(** Statements that may update the store and may raise. *)
Definition stateful (A : Type) : Type := heap -> result A * heap.

Definition st_bind {A B} (m : stateful A) (k : A -> stateful B) : stateful B :=
  fun h =>
    match m h with
    | (Return a, h) => k a h
    | (Raise e, h) => (Raise e, h)
    end.

Fixpoint st_for_each (body : val -> stateful unit) (l : list val)
    : stateful unit :=
  match l with
  | [] => fun h => (Return tt, h)
  | v :: l => st_bind (body v) (fun _ => st_for_each body l)
  end.

(** [target.pop(key)]; only a dict has a [pop] that takes a string. *)
Definition pop (target : val) (key : string) : stateful val := fun h =>
  match target with
  | VRef l =>
      match h !! l with
      | Some (ODict d) =>
          match dict_get key d with
          | Some v => (Return v, <[l := ODict (dict_del key d)]> h)
          | None => (Raise (KeyError key), h)
          end
      | Some (OList _) => (Raise (TypeError "pop"), h)
      | _ => (Raise (AttributeError "pop"), h)
      end
  | _ => (Raise (AttributeError "pop"), h)
  end.

(** [target[key] = v] *)
Definition setitem (target : val) (key : string) (v : val) : stateful unit :=
  fun h =>
  match target with
  | VRef l =>
      match h !! l with
      | Some (ODict d) => (Return tt, <[l := ODict (dict_set key v d)]> h)
      | _ => (Raise (TypeError "setitem"), h)
      end
  | _ => (Raise (TypeError "setitem"), h)
  end.

(** [target[key]] *)
Definition getitem (target : val) (key : string) : stateful val := fun h =>
  match target with
  | VRef l =>
      match h !! l with
      | Some (ODict d) =>
          match dict_get key d with
          | Some v => (Return v, h)
          | None => (Raise (KeyError key), h)
          end
      | _ => (Raise (TypeError "getitem"), h)
      end
  | _ => (Raise (TypeError "getitem"), h)
  end.

(** [target.get(key, [])]: [None] stands for the fresh empty list, which
    holds nothing to loop over. *)
Definition get (target : val) (key : string) : stateful (option val) :=
  fun h =>
  match target with
  | VRef l =>
      match h !! l with
      | Some (ODict d) => (Return (dict_get key d), h)
      | _ => (Raise (AttributeError "get"), h)
      end
  | _ => (Raise (AttributeError "get"), h)
  end.

Definition truthy (v : val) (h : heap) : bool :=
  match v with
  | VNone => false
  | VInt z => negb (Z.eqb z 0)
  | VStr s => negb (String.eqb s "")
  | VRef l =>
      match h !! l with
      | Some (ODict []) | Some (OList []) => false
      | _ => true
      end
  end.

(** What a [for] loop over [v] visits: the elements of a list, the keys of a
    dict, the characters of a string. *)
Definition iterate (v : val) : stateful (list val) := fun h =>
  match v with
  | VRef l =>
      match h !! l with
      | Some (OList elems) => (Return elems, h)
      | Some (ODict d) => (Return ((fun kv => VStr kv.1) <$> d), h)
      | _ => (Raise (TypeError "iter"), h)
      end
  | VStr s =>
      (Return ((fun c => VStr (String c EmptyString))
               <$> String.list_ascii_of_string s), h)
  | _ => (Raise (TypeError "iter"), h)
  end.

Definition rename_key (target : val) (old new : string) : stateful unit :=
  st_bind (pop target old) (fun v => setitem target new v).

(** The body of the inner loop of [to_dict]. *)
Definition to_dict_param (param : val) : stateful unit :=
  st_bind (rename_key param "from_param" "from") (fun _ =>
  rename_key param "to_param" "to").

(** The body of the outer loop of [to_dict]. *)
Definition to_dict_link (link : val) : stateful unit :=
  st_bind (rename_key link "from_node" "from") (fun _ =>
  st_bind (rename_key link "to_node" "to") (fun _ =>
  st_bind (get link "paramMapping") (fun found => fun h =>
    match found with
    | Some params =>
        if truthy params h
        then st_bind (iterate params) (st_for_each to_dict_param) h
        else (Return tt, h)
    | None => (Return tt, h)
    end))).

(** The statements of [to_dict] that follow [obj = asdict(self)]. *)
Definition to_dict_loops (obj : val) : stateful val :=
  st_bind (getitem obj "links") (fun links =>
  st_bind (iterate links) (fun links =>
  st_bind (st_for_each to_dict_link links) (fun _ => fun h =>
  (Return obj, h)))).

(** [to_dict] on the pipeline at [self]; [None] when the copy runs out of
    fuel.  [asdict] refuses what is not a dataclass instance. *)
Definition to_dict (fuel : nat) (self : nat) (h : heap)
    : option (result val * heap) :=
  match h !! self with
  | Some (OInstance _ _) =>
      match asdict_inner fuel (VRef self) h with
      | Some (obj, h) => Some (to_dict_loops obj h)
      | None => None
      end
  | _ => Some (Raise (TypeError "asdict"), h)
  end.

(** A pipeline with the link 1 -> 2, mapping x to y, and no node: the
    pipeline at 5, its lists at 0 and 3, the link at 2, the mapping entry
    at 1. *)
Definition example_heap : heap :=
  [OList [];
   OInstance "ParamMapping"
     [("from_param", VStr "x"); ("to_param", VStr "y")];
   OInstance "Link"
     [("from_node", VInt 1); ("to_node", VInt 2); ("paramMapping", VRef 4)];
   OList [VRef 2];
   OList [VRef 1];
   OInstance "Pipeline" [("nodes", VRef 0); ("links", VRef 3)]].

(** The plain data a value stands for in a store. *)
Fixpoint read (fuel : nat) (h : heap) (v : val) : option pyval :=
  match fuel with
  | O => None
  | S fuel =>
      match v with
      | VNone => Some PNone
      | VInt z => Some (PInt z)
      | VStr s => Some (PStr s)
      | VRef l =>
          match h !! l with
          | Some (ODict items) | Some (OInstance _ items) =>
              PDict <$> mapM (fun kv => pair kv.1 <$> read fuel h kv.2) items
          | Some (OList elems) => PList <$> mapM (read fuel h) elems
          | None => None
          end
      end
  end.

(** The object graph under [v] has depth at most [d]: no cycle. *)
Fixpoint depth_le (d : nat) (h : heap) (v : val) {struct d} : Prop :=
  match v with
  | VRef l =>
      match d with
      | O => False
      | S d =>
          match h !! l with
          | Some (ODict items) | Some (OInstance _ items) =>
              Forall (fun kv => depth_le d h kv.2) items
          | Some (OList elems) => Forall (depth_le d h) elems
          | None => False
          end
      end
  | _ => True
  end.

(** A value that does not refer to an object below location [n], an object
    that holds such values only, a store whose objects from [n] on are
    such. *)
Definition fresh_val (n : nat) (v : val) : Prop :=
  match v with
  | VRef l => (n <= l)%nat
  | _ => True
  end.

Definition fresh_obj (n : nat) (o : obj) : Prop :=
  match o with
  | ODict items | OInstance _ items =>
      Forall (fun kv => fresh_val n kv.2) items
  | OList elems => Forall (fresh_val n) elems
  end.

Definition fresh_closed (n : nat) (h : heap) : Prop :=
  forall l o, (n <= l)%nat -> h !! l = Some o -> fresh_obj n o.

(** A copy that only appends objects, none of which refers below [n]. *)
Definition copy_grows (n : nat) (copy : val -> heap -> option (val * heap))
    : Prop :=
  forall v h v' h', copy v h = Some (v', h') -> (n <= length h)%nat ->
    exists new, h' = h ++ new /\ Forall (fresh_obj n) new /\ fresh_val n v'.

(** A statement that leaves the objects below [n] alone, allocates nothing,
    keeps the store closed and returns a result in [Q]. *)
Definition framed {A} (n : nat) (Q : A -> Prop) (m : stateful A) : Prop :=
  forall h r h', m h = (r, h') -> fresh_closed n h ->
    fresh_closed n h' /\ length h' = length h
    /\ (forall l, (l < n)%nat -> h' !! l = h !! l)
    /\ (forall a, r = Return a -> Q a).

End Store.

(** ** The model factory ([model_factory.py])

    [ModelFactory] talks to the backend through [_request_with_retry] and
    builds [Model] objects from the JSON it answers.  The [Model] class, the
    request helper and the configuration are not part of the sources: they
    are parameters.  Calls to [logging] are left out. *)

Module ModelFactory.

(** What [r.json()] returns.  A number with a fraction or an exponent is kept
    as it was written; [JNull] is [None]. *)
Inductive json :=
  | JNull
  | JBool (b : bool)
  | JInt (z : Z)
  | JFloat (lit : string)
  | JStr (s : string)
  | JArr (l : list json)
  | JObj (d : list (string * json)).

(** [RequestError] stands for whatever the request or [r.json()] raises. *)
Inductive error :=
  | KeyError (key : string)
  | TypeError
  | AssertionError
  | Exception (msg : string)
  | RequestError (msg : string).

Inductive outcome (A : Type) :=
  | Ok (a : A)
  | Err (e : error).
Arguments Ok {A} a.
Arguments Err {A} e.

#[global] Instance outcome_ret : MRet outcome := @Ok.

#[global] Instance outcome_bind : MBind outcome := fun A B k r =>
  match r with
  | Ok a => k a
  | Err e => Err e
  end.

(** [p in s] on strings. *)
Fixpoint is_infix (p s : string) : bool :=
  String.prefix p s ||
  match s with
  | EmptyString => false
  | String _ s' => is_infix p s'
  end.

(** [key in v] for a string [key]: a key of a dict, an element of a list, a
    part of a string. *)
Definition contains (key : string) (v : json) : outcome bool :=
  match v with
  | JObj d => Ok (match dict_get key d with Some _ => true | None => false end)
  | JArr l =>
      Ok (existsb (fun x => match x with
                            | JStr s => String.eqb s key
                            | _ => false
                            end) l)
  | JStr s => Ok (is_infix key s)
  | _ => Err TypeError
  end.

(** [v[key]] for a string [key]. *)
Definition getitem (v : json) (key : string) : outcome json :=
  match v with
  | JObj d =>
      match dict_get key d with
      | Some x => Ok x
      | None => Err (KeyError key)
      end
  | _ => Err TypeError
  end.

(** [v[key] = x] for a string [key]; the result is [v] after the update. *)
Definition setitem (v : json) (key : string) (x : json) : outcome json :=
  match v with
  | JObj d => Ok (JObj (dict_set key x d))
  | _ => Err TypeError
  end.

(** What a loop over [v] visits. *)
Definition iterate (v : json) : outcome (list json) :=
  match v with
  | JArr l => Ok l
  | JObj d => Ok ((fun kv => JStr kv.1) <$> d)
  | JStr s =>
      Ok ((fun c => JStr (String c EmptyString))
          <$> String.list_ascii_of_string s)
  | _ => Err TypeError
  end.

(** The class attributes, read from the configuration. *)
Record Config : Type :=
  mkConfig {
    api_key : string;
    aixplain_key : string;
    backend_url : string }.

(** The arguments of one call of [_request_with_retry]. *)
Record Request : Type :=
  mkRequest {
    method : string;
    url : string;
    headers : list (string * string);
    params : option (list (string * string));
    data : option string }.

Section Factory.

(** [Model(id, name, supplier=..., api_key=...)]. *)
Context {Model : Type}.
Context (mkModel : json -> json -> json -> json -> Model).
Context (cls : Config).
Context (urljoin : string -> string -> string).
(** A value inside an f-string. *)
Context (format : json -> string).
Context (json_dumps : json -> string).
(** [_request_with_retry(...).json()] for a request, given the requests made
    before it. *)
Context (serve : list Request -> Request -> outcome json).

(** The [headers] every method builds. *)
Definition auth_headers : list (string * string) :=
  if decide (aixplain_key cls = "")
  then [("Authorization", "Token " +:+ api_key cls);
        ("Content-Type", "application/json")]
  else [("x-aixplain-key", aixplain_key cls);
        ("Content-Type", "application/json")].

(** [_create_model_from_response]: its outcome and [response] after the
    call, which may have gained the key [api_key]. *)
Definition _create_model_from_response (response : json)
    : outcome Model * json :=
  match contains "api_key" response with
  | Err e => (Err e, response)
  | Ok present =>
      match (if present then Ok response
             else setitem response "api_key" (JStr (api_key cls))) with
      | Err e => (Err e, response)
      | Ok response =>
          (id ← getitem response "id";
           name ← getitem response "name";
           supplier ← getitem response "supplier";
           supplier_id ← getitem supplier "id";
           key ← getitem response "api_key";
           Ok (mkModel id name supplier_id key),
           response)
      end
  end.

(** The [except] branch of [get]: what it raises for the value [resp] has
    when the [try] block fails. *)
Definition creation_error (resp : json) : error :=
  let unspecified := Exception "Model Creation: Unspecified Error" in
  match resp with
  | JNull => unspecified
  | _ =>
      match contains "statusCode" resp with
      | Err e => e
      | Ok false => unspecified
      | Ok true =>
          match getitem resp "statusCode" with
          | Err e => e
          | Ok status_code =>
              match getitem resp "message" with
              | Err e => e
              | Ok message =>
                  Exception ("Model Creation: Status " +:+ format status_code
                             +:+ " - " +:+ format message)
              end
          end
      end
  end.

(** The answer [d] of the backend when [get] hands it to
    [_create_model_from_response]: it has been given the team key, then the
    key passed to [get]. *)
Definition keyed (d : list (string * json)) (key : option string)
    : list (string * json) :=
  let d := dict_set "api_key" (JStr (api_key cls)) d in
  match key with
  | Some k => dict_set "api_key" (JStr k) d
  | None => d
  end.

(** [get]: its outcome and the requests made so far. *)
Definition get (model_id : string) (key : option string)
    (log : list Request) : outcome Model * list Request :=
  let url := urljoin (backend_url cls) ("sdk/models/" +:+ model_id) in
  let request := mkRequest "get" url auth_headers None None in
  let '(tried, resp) :=
    match serve log request with
    | Err e => (Err e, JNull)
    | Ok resp =>
        match setitem resp "api_key" (JStr (api_key cls)) with
        | Err e => (Err e, resp)
        | Ok resp =>
            match (match key with
                   | Some k => setitem resp "api_key" (JStr k)
                   | None => Ok resp
                   end) with
            | Err e => (Err e, resp)
            | Ok resp => _create_model_from_response resp
            end
        end
    end in
  match tried with
  | Ok model => (Ok model, log ++ [request])
  | Err _ => (Err (creation_error resp), log ++ [request])
  end.

(** The list [filter_params] of [get_assets_from_page]. *)
Definition filter_params (task : string)
    (input_language output_language : option string) : list json :=
  match input_language with
  | Some language =>
      let code :=
        if decide (task = "translation") then "sourcelanguage"
        else "language" in
      [JObj [("code", JStr code); ("value", JStr language)]]
  | None => []
  end ++
  match output_language with
  | Some language =>
      if decide (task = "translation")
      then [JObj [("code", JStr "targetlanguage"); ("value", JStr language)]]
      else []
  | None => []
  end.

(** The request of [get_assets_from_page]. *)
Definition page_request (page_number : Z) (task : string)
    (input_language output_language : option string) : Request :=
  let url :=
    urljoin (backend_url cls)
      ("sdk/models/?pageNumber=" +:+ format (JInt page_number)
       +:+ "&function=" +:+ task) in
  let filters := filter_params task input_language output_language in
  mkRequest "get" url auth_headers
    (Some [("ioFilter", json_dumps (JArr filters))]) None.

(** [get_assets_from_page]: any exception gives the empty list. *)
Definition get_assets_from_page (page_number : Z) (task : string)
    (input_language output_language : option string) (log : list Request)
    : list Model * list Request :=
  let request := page_request page_number task input_language output_language in
  let tried : outcome (list Model) :=
    resp ← serve log request;
    all_models ← getitem resp "items";
    infos ← iterate all_models;
    mapM (fun info => (_create_model_from_response info).1) infos in
  (match tried with Ok model_list => model_list | Err _ => [] end,
   log ++ [request]).

(** The loop of [get_first_k_assets]. *)
Fixpoint get_pages (pages : list Z) (task : string)
    (input_language output_language : option string) (log : list Request)
    : list Model * list Request :=
  match pages with
  | [] => ([], log)
  | page_number :: pages =>
      let '(models, log) :=
        get_assets_from_page page_number task input_language output_language
          log in
      let '(rest, log) :=
        get_pages pages task input_language output_language log in
      (models ++ rest, log)
  end.

(** [get_first_k_assets]: the failed [assert] is caught like any other
    exception. *)
Definition get_first_k_assets (k : Z) (task : string)
    (input_language output_language : option string) (log : list Request)
    : list Model * list Request :=
  if decide (0 < k) then
    let '(model_list, log) :=
      get_pages (seqZ 0 (k / 10 + 1)) task input_language output_language
        log in
    (take (Z.to_nat k) model_list, log)
  else ([], log).

End Factory.

(** A configuration without platform key, the description of a model and a
    page of ten such descriptions, to run the methods on. *)
Definition example_config : Config := mkConfig "team-key" "" "https://backend/".

Definition example_info : json :=
  JObj [("id", JStr "m1"); ("name", JStr "model one");
        ("supplier", JObj [("id", JStr "s1")])].

Definition example_page : json :=
  JObj [("items", JArr (replicate 10 example_info))].

End ModelFactory.

(** ** What the claims are stated with *)

(** A node number never appears as a link source, or as a link target. *)
Definition never_source (ls : list Link) (n : Z) : Prop :=
  forall link, link ∈ ls -> from_node link <> n.

Definition never_target (ls : list Link) (n : Z) : Prop :=
  forall link, link ∈ ls -> to_node link <> n.

Definition is_source (ls : list Link) (n : Z) : Prop :=
  exists link, link ∈ ls /\ from_node link = n.

Definition is_target (ls : list Link) (n : Z) : Prop :=
  exists link, link ∈ ls /\ to_node link = n.

(** The local degree requirement of a node, by existence of links only. *)
Definition locally_linked {DataType} (ls : list Link) (node : Node DataType)
    : Prop :=
  match type node with
  | INPUT => is_source ls (number node)
  | OUTPUT => is_target ls (number node)
  | _ => is_source ls (number node) /\ is_target ls (number node)
  end.

(** The graph of testable property 3 and the two graphs obtained from it by
    removing one link. *)
Definition minimal_nodes {DataType} : list (Node DataType) :=
  [mkNode 1 "input" INPUT []; mkNode 2 "asset" ASSET [];
   mkNode 3 "output" OUTPUT []].

Definition minimal_graph {DataType Handle} : Pipeline DataType Handle :=
  mkPipeline minimal_nodes [mkLink 1 2 []; mkLink 2 3 []] None.

Definition without_link_1_2 {DataType Handle} : Pipeline DataType Handle :=
  mkPipeline minimal_nodes [mkLink 2 3 []] None.

Definition without_link_2_3 {DataType Handle} : Pipeline DataType Handle :=
  mkPipeline minimal_nodes [mkLink 1 2 []] None.

(** Two INPUT nodes and no link; two INPUT nodes of one label, the first
    linked out; two OUTPUT nodes of one label, the first linked in; a
    pipeline whose stored handle tests false. *)
Definition two_unlinked_inputs {DataType Handle} : Pipeline DataType Handle :=
  mkPipeline [mkNode 1 "first" INPUT []; mkNode 2 "second" INPUT []] [] None.

Definition same_label_inputs {DataType Handle} : Pipeline DataType Handle :=
  mkPipeline [mkNode 1 "in" INPUT []; mkNode 2 "in" INPUT []]
    [mkLink 1 2 []] None.

Definition same_label_outputs {DataType Handle} : Pipeline DataType Handle :=
  mkPipeline [mkNode 1 "out" OUTPUT []; mkNode 2 "out" OUTPUT []]
    [mkLink 2 1 []] None.


(** [==] on plain data: lists are compared in order, dicts as mappings. *)
Fixpoint py_eqb (a b : pyval) {struct a} : bool :=
  match a, b with
  | PNone, PNone => true
  | PInt x, PInt y => Z.eqb x y
  | PStr s, PStr t => String.eqb s t
  | PList l, PList l' =>
      (fix list_eqb (l l' : list pyval) {struct l} : bool :=
         match l, l' with
         | [], [] => true
         | x :: l, y :: l' => py_eqb x y && list_eqb l l'
         | _, _ => false
         end) l l'
  | PDict d, PDict d' =>
      Nat.eqb (length d) (length d') &&
      (fix items_eqb (d : pydict) {struct d} : bool :=
         match d with
         | [] => true
         | (k, v) :: d =>
             match dict_get k d' with
             | Some v' => py_eqb v v'
             | None => false
             end && items_eqb d
         end) d
  | _, _ => false
  end.

(** The wire format of section 6 of the specification: a link and a
    parameter-mapping entry carry their fields under [from] and [to]. *)
Definition wire_param (pm : ParamMapping) : pyval :=
  PDict [("from", PStr (from_param pm)); ("to", PStr (to_param pm))].

Definition wire_link (link : Link) : pyval :=
  PDict [("from", PInt (from_node link));
         ("to", PInt (to_node link));
         ("paramMapping", PList (wire_param <$> paramMapping link))].

(** The [dict] that [to_dict] leaves for a link: [pop] removes a key and the
    assignment appends the new one, so [paramMapping] comes first. *)
Definition serialized_link (link : Link) : pyval :=
  PDict [("paramMapping", PList (wire_param <$> paramMapping link));
         ("from", PInt (from_node link));
         ("to", PInt (to_node link))].

(** The link of testable property 6, and [to_dict] on the pipeline that
    holds this link and no node. *)
Definition example_link : Link := mkLink 1 2 [mkParamMapping "x" "y"].

Definition to_dict_example : result pyval :=
  to_dict (DataType:=unit) (Handle:=unit) (fun _ => PNone)
    (mkPipeline [] [example_link] None).

(** ** Properties of [validate] *)

Section ValidateProperties.

Context {DataType Handle : Type}.
Implicit Types (self : Pipeline DataType Handle) (node : Node DataType).
Implicit Types (ls : list Link) (n : Z).

Lemma never_source_iff ls n : never_source ls n <-> ~ is_source ls n.
Proof.
  unfold never_source, is_source. split.
  - intros H (link & Hin & Heq). exact (H link Hin Heq).
  - intros H link Hin Heq. apply H. exists link. auto.
Qed.

Lemma never_target_iff ls n : never_target ls n <-> ~ is_target ls n.
Proof.
  unfold never_target, is_target. split.
  - intros H (link & Hin & Heq). exact (H link Hin Heq).
  - intros H link Hin Heq. apply H. exists link. auto.
Qed.

(** The keys of a dict comprehension over the links. *)
Lemma comprehension_lookup_None (key : Link -> Z) ls (m : gmap Z Link) n :
  foldl (fun m link => <[key link := link]> m) m ls !! n = None <->
  m !! n = None /\ forall link, link ∈ ls -> key link <> n.
Proof.
  revert m. induction ls as [|l ls IH]; intros m; simpl.
  - split; [intros H; split; [done|] | tauto].
    intros link Hin. inversion Hin.
  - rewrite IH. rewrite lookup_insert_None. split.
    + intros [[Hm Hl] Hls]. split; [done|].
      intros link Hin. apply elem_of_cons in Hin as [->|Hin]; auto.
    + intros [Hm Hall]. split; [split; [done|]|].
      * apply Hall. apply elem_of_cons. auto.
      * intros link Hin. apply Hall. apply elem_of_cons. auto.
Qed.

Lemma not_in_from_map ls n :
  not_in n (link_from_map ls) = true <-> never_source ls n.
Proof.
  unfold not_in, link_from_map, never_source.
  destruct (foldl _ _ _ !! n) eqn:E.
  - split; [discriminate|]. intros H.
    pose proof (proj2 (comprehension_lookup_None from_node ls ∅ n)
                  (conj (lookup_empty n) H)) as E'.
    congruence.
  - apply comprehension_lookup_None in E as [_ E]. tauto.
Qed.

Lemma not_in_to_map ls n :
  not_in n (link_to_map ls) = true <-> never_target ls n.
Proof.
  unfold not_in, link_to_map, never_target.
  destruct (foldl _ _ _ !! n) eqn:E.
  - split; [discriminate|]. intros H.
    pose proof (proj2 (comprehension_lookup_None to_node ls ∅ n)
                  (conj (lookup_empty n) H)) as E'.
    congruence.
  - apply comprehension_lookup_None in E as [_ E]. tauto.
Qed.

Lemma in_from_map ls n :
  not_in n (link_from_map ls) = false <-> is_source ls n.
Proof.
  destruct (not_in n (link_from_map ls)) eqn:E.
  - apply not_in_from_map, never_source_iff in E. split; [discriminate|tauto].
  - split; [intros _|done].
    unfold not_in, link_from_map in E.
    destruct (foldl _ _ _ !! n) eqn:E'; [|discriminate].
    clear E. induction ls as [|link ls IH] using rev_ind.
    + simpl in E'. rewrite lookup_empty in E'. discriminate.
    + rewrite foldl_app in E'. simpl in E'.
      destruct (decide (from_node link = n)) as [Heq|Hne].
      * exists link. split; [|done]. apply elem_of_app. right.
        apply elem_of_cons. auto.
      * rewrite lookup_insert_ne in E' by done.
        destruct (IH E') as (l' & Hin & Heq). exists l'. split; [|done].
        apply elem_of_app. auto.
Qed.

Lemma in_to_map ls n :
  not_in n (link_to_map ls) = false <-> is_target ls n.
Proof.
  destruct (not_in n (link_to_map ls)) eqn:E.
  - apply not_in_to_map, never_target_iff in E. split; [discriminate|tauto].
  - split; [intros _|done].
    unfold not_in, link_to_map in E.
    destruct (foldl _ _ _ !! n) eqn:E'; [|discriminate].
    clear E. induction ls as [|link ls IH] using rev_ind.
    + simpl in E'. rewrite lookup_empty in E'. discriminate.
    + rewrite foldl_app in E'. simpl in E'.
      destruct (decide (to_node link = n)) as [Heq|Hne].
      * exists link. split; [|done]. apply elem_of_app. right.
        apply elem_of_cons. auto.
      * rewrite lookup_insert_ne in E' by done.
        destruct (IH E') as (l' & Hin & Heq). exists l'. split; [|done].
        apply elem_of_app. auto.
Qed.

(** The loop: it returns when every body returns, and raises what the first
    failing body raises. *)
Lemma for_each_Return {A} (body : A -> result unit) (l : list A) :
  for_each body l = Return tt <-> Forall (fun a => body a = Return tt) l.
Proof.
  induction l as [|a l IH]; simpl.
  - split; [constructor|done].
  - rewrite Forall_cons. unfold mbind, result_bind.
    destruct (body a) as [[]|e]; [|split; [discriminate|intros [? _]; done]].
    rewrite IH. tauto.
Qed.

Lemma for_each_first_Raise {A} (body : A -> result unit) pre a post e :
  Forall (fun a => body a = Return tt) pre -> body a = Raise e ->
  for_each body (pre ++ a :: post) = Raise e.
Proof.
  intros Hpre Ha. induction Hpre as [|b pre Hb _ IH]; simpl.
  - unfold mbind, result_bind. by rewrite Ha.
  - unfold mbind, result_bind. by rewrite Hb.
Qed.

Lemma for_each_Raise {A} (body : A -> result unit) (l : list A) e :
  for_each body l = Raise e <->
  exists pre a post, l = pre ++ a :: post /\
    Forall (fun a => body a = Return tt) pre /\ body a = Raise e.
Proof.
  split.
  - induction l as [|a l IH]; simpl; [discriminate|].
    unfold mbind, result_bind. destruct (body a) as [[]|e'] eqn:Ha.
    + intros H. destruct (IH H) as (pre & b & post & -> & Hpre & Hb).
      exists (a :: pre), b, post. repeat split; [|done]. by constructor.
    + intros [= ->]. exists [], a, l. repeat split; [constructor|done].
  - intros (pre & a & post & -> & Hpre & Ha). by apply for_each_first_Raise.
Qed.

Lemma for_each_elem_Raise {A} (body : A -> result unit) (l : list A) a e :
  a ∈ l -> body a = Raise e -> exists e', for_each body l = Raise e'.
Proof.
  intros Hin Ha. destruct (for_each body l) as [[]|e'] eqn:E; [|eauto].
  apply for_each_Return in E. rewrite Forall_forall in E.
  specialize (E a Hin). congruence.
Qed.

(** What the loop body does on a node that is neither input nor output:
    the test on [link_from_map] comes first and reports "not linked in". *)
Lemma validate_node_other (from_map to_map : gmap Z Link) node :
  type node <> INPUT -> type node <> OUTPUT ->
  validate_node from_map to_map node =
    if not_in (number node) from_map
    then Raise (ValueError ("Node " +:+ label node +:+ " not linked in"))
    else if not_in (number node) to_map
    then Raise (ValueError ("Node " +:+ label node +:+ " not linked out"))
    else Return tt.
Proof.
  intros Hi Ho. unfold validate_node.
  destruct (decide (type node = INPUT)); [done|].
  destruct (decide (type node = OUTPUT)); [done|].
  by destruct (not_in (number node) from_map).
Qed.

Lemma validate_node_Return ls node :
  validate_node (link_from_map ls) (link_to_map ls) node = Return tt <->
  locally_linked ls node.
Proof.
  unfold validate_node, locally_linked.
  destruct (decide (type node = INPUT)) as [->|Hi].
  { rewrite <- in_from_map. by destruct (not_in _ _). }
  destruct (decide (type node = OUTPUT)) as [->|Ho].
  { rewrite <- in_to_map. by destruct (not_in _ _). }
  assert (is_source ls (number node) /\ is_target ls (number node) <->
          locally_linked ls node) as Hl.
  { unfold locally_linked. by destruct (type node). }
  unfold locally_linked in Hl. rewrite <- Hl.
  rewrite <- in_from_map, <- in_to_map. unfold mbind, result_bind.
  destruct (not_in _ (link_from_map ls)), (not_in _ (link_to_map ls));
    split; try done; intros [? ?]; done.
Qed.

End ValidateProperties.

Section ValidateClaims.

Context {DataType Handle : Type}.
Implicit Types (self : Pipeline DataType Handle) (node : Node DataType).

Lemma string_length_app (s t : string) :
  String.length (s +:+ t) = (String.length s + String.length t)%nat.
Proof. induction s as [|c s IH]; simpl; [done|]. by rewrite IH. Qed.

Lemma string_app_inv_head (s a b : string) : s +:+ a = s +:+ b -> a = b.
Proof.
  induction s as [|c s IH]; simpl; [done|]. intros [= H]. by apply IH.
Qed.

Lemma string_app_inv_tail (a b t : string) : a +:+ t = b +:+ t -> a = b.
Proof.
  revert b. induction a as [|c a IH]; intros [|c' b]; simpl; intros H.
  - done.
  - apply (f_equal String.length) in H.
    rewrite ?string_length_app in H. simpl in H.
    rewrite ?string_length_app in H. lia.
  - apply (f_equal String.length) in H.
    rewrite ?string_length_app in H. simpl in H.
    rewrite ?string_length_app in H. lia.
  - injection H as -> H. f_equal. by apply IH.
Qed.

(** Which node a message of [validate] comes from. *)
Lemma input_error_origin (from_map to_map : gmap Z Link) node lbl :
  validate_node from_map to_map node
    = Raise (ValueError ("Input node " +:+ lbl +:+ " not linked out")) ->
  type node = INPUT /\ label node = lbl.
Proof.
  unfold validate_node.
  destruct (decide (type node = INPUT)) as [Hi|Hi].
  - destruct (not_in _ _); [|discriminate]. intros [= H]. split; [done|].
    apply string_app_inv_head in H. by apply string_app_inv_tail in H.
  - destruct (decide (type node = OUTPUT)).
    + destruct (not_in _ _); [|discriminate]. simpl. discriminate.
    + unfold mbind, result_bind.
      destruct (not_in _ from_map); [simpl; discriminate|].
      destruct (not_in _ to_map); [simpl; discriminate|discriminate].
Qed.

Lemma output_error_origin (from_map to_map : gmap Z Link) node lbl :
  validate_node from_map to_map node
    = Raise (ValueError ("Output node " +:+ lbl +:+ " not linked in")) ->
  type node = OUTPUT /\ label node = lbl.
Proof.
  unfold validate_node.
  destruct (decide (type node = INPUT)) as [Hi|Hi].
  - destruct (not_in _ _); [simpl; discriminate|discriminate].
  - destruct (decide (type node = OUTPUT)).
    + destruct (not_in _ _); [|discriminate]. intros [= H]. split; [done|].
      apply string_app_inv_head in H. by apply string_app_inv_tail in H.
    + unfold mbind, result_bind.
      destruct (not_in _ from_map); [simpl; discriminate|].
      destruct (not_in _ to_map); [simpl; discriminate|discriminate].
Qed.

Lemma for_each_passed {A} (body : A -> result unit) pre l :
  Forall (fun a => body a = Return tt) pre ->
  for_each body (pre ++ l) = for_each body l.
Proof.
  induction 1 as [|a pre Ha _ IH]; [done|].
  cbn [app for_each]. unfold mbind, result_bind. by rewrite Ha.
Qed.

Lemma validate_Return_Forall self :
  validate self = Return tt <->
  Forall (locally_linked (links self)) (nodes self).
Proof.
  unfold validate. rewrite for_each_Return.
  apply Forall_iff. intros node. apply validate_node_Return.
Qed.

(** With the nodes before it in order, [validate] does on [node :: post]
    what the check of [node] says. *)
Lemma validate_at_position self pre node post :
  nodes self = pre ++ node :: post ->
  Forall (locally_linked (links self)) pre ->
  validate self
  = match validate_node (link_from_map (links self))
            (link_to_map (links self)) node with
    | Raise e => Raise e
    | Return _ => validate (mkPipeline post (links self) (instance self))
    end.
Proof.
  intros Hsplit Hpre. unfold validate. rewrite Hsplit.
  rewrite for_each_passed.
  - cbn [for_each nodes links]. unfold mbind, result_bind.
    by destruct (validate_node _ _ node) as [[]|].
  - eapply Forall_impl; [exact Hpre|]. intros n Hn.
    by apply validate_node_Return.
Qed.

(** C1 (the code departs from the claim).  In the graph input(1) -> asset(2),
    output(3), the asset node is the target of a link and the source of
    none: what is missing is its outgoing link.  [validate] stops at this
    node and reports it as "not linked in". *)
Theorem other_node_reports_swapped_direction :
  validate (without_link_2_3 (DataType:=DataType) (Handle:=Handle))
    = Raise (ValueError "Node asset not linked in")
  /\ is_target [mkLink 1 2 []] 2
  /\ never_source [mkLink 1 2 []] 2.
Proof.
  split; [vm_compute; reflexivity|]. split.
  - exists (mkLink 1 2 []). split; [|reflexivity].
    apply list_elem_of_singleton. reflexivity.
  - intros link Hin. apply list_elem_of_singleton in Hin. subst link.
    simpl. lia.
Qed.

(** C2, amended.  Take an INPUT node of a pipeline such that every node
    before it in the node list meets its link requirement.  If the node's
    number is the [from_node] of no link, [validate] raises the error
    "Input node <label> not linked out"; if it is the [from_node] of some
    link, [validate] goes on and does what it does on the nodes after it.
    So, when no INPUT node after it carries the same label, [validate]
    raises this error exactly when the number is the [from_node] of no
    link.  Whatever comes before the node: a number that is no [from_node]
    makes [validate] raise, and when [validate] returns the number is a
    [from_node]. *)
Theorem input_node_not_linked_out self pre node post :
  nodes self = pre ++ node :: post -> type node = INPUT ->
  let err := ValueError ("Input node " +:+ label node +:+ " not linked out") in
  (never_source (links self) (number node) ->
     exists e, validate self = Raise e)
  /\ (validate self = Return tt -> is_source (links self) (number node))
  /\ (Forall (locally_linked (links self)) pre ->
      (never_source (links self) (number node) -> validate self = Raise err)
      /\ (is_source (links self) (number node) ->
            validate self
            = validate (mkPipeline post (links self) (instance self)))
      /\ ((forall later, later ∈ post -> type later = INPUT ->
              label later <> label node) ->
            (validate self = Raise err <->
             never_source (links self) (number node)))).
Proof.
  intros Hsplit Hty err.
  assert (node ∈ nodes self) as Hin.
  { rewrite Hsplit. apply elem_of_app. right. apply elem_of_cons. by left. }
  assert (validate_node (link_from_map (links self))
            (link_to_map (links self)) node
          = if not_in (number node) (link_from_map (links self))
            then Raise err else Return tt) as Hbody.
  { unfold validate_node. by rewrite decide_True. }
  split; [|split].
  - intros Hn. apply not_in_from_map in Hn. rewrite Hn in Hbody.
    exact (for_each_elem_Raise _ _ _ _ Hin Hbody).
  - intros Hret. apply validate_Return_Forall in Hret.
    rewrite Forall_forall in Hret. specialize (Hret node Hin).
    unfold locally_linked in Hret. by rewrite Hty in Hret.
  - intros Hpre. rewrite (validate_at_position self pre node post Hsplit Hpre).
    rewrite Hbody.
    destruct (not_in (number node) (link_from_map (links self))) eqn:E.
    + apply not_in_from_map in E as Hnever.
      split; [done|]. split; [|done].
      intros Hsrc. by apply never_source_iff in Hnever.
    + apply in_from_map in E as Hsrc.
      split; [intros Hnever; by apply never_source_iff in Hnever|].
      split; [done|]. intros Hlabels. split.
      * intros Hraise. unfold validate in Hraise. simpl in Hraise.
        apply for_each_Raise in Hraise
          as (pre' & later & post' & -> & _ & Hlater).
        apply input_error_origin in Hlater as [Hi Hl].
        destruct (Hlabels later); [|done|done].
        apply elem_of_app. right. apply elem_of_cons. by left.
      * intros Hnever. by apply never_source_iff in Hnever.
Qed.

(** C3, amended.  Take an OUTPUT node of a pipeline such that every node
    before it in the node list meets its link requirement.  If the node's
    number is the [to_node] of no link, [validate] raises the error
    "Output node <label> not linked in"; if it is the [to_node] of some
    link, [validate] goes on and does what it does on the nodes after it.
    So, when no OUTPUT node after it carries the same label, [validate]
    raises this error exactly when the number is the [to_node] of no link.
    Whatever comes before the node: a number that is no [to_node] makes
    [validate] raise, and when [validate] returns the number is a
    [to_node]. *)
Theorem output_node_not_linked_in self pre node post :
  nodes self = pre ++ node :: post -> type node = OUTPUT ->
  let err := ValueError ("Output node " +:+ label node +:+ " not linked in") in
  (never_target (links self) (number node) ->
     exists e, validate self = Raise e)
  /\ (validate self = Return tt -> is_target (links self) (number node))
  /\ (Forall (locally_linked (links self)) pre ->
      (never_target (links self) (number node) -> validate self = Raise err)
      /\ (is_target (links self) (number node) ->
            validate self
            = validate (mkPipeline post (links self) (instance self)))
      /\ ((forall later, later ∈ post -> type later = OUTPUT ->
              label later <> label node) ->
            (validate self = Raise err <->
             never_target (links self) (number node)))).
Proof.
  intros Hsplit Hty err.
  assert (node ∈ nodes self) as Hin.
  { rewrite Hsplit. apply elem_of_app. right. apply elem_of_cons. by left. }
  assert (validate_node (link_from_map (links self))
            (link_to_map (links self)) node
          = if not_in (number node) (link_to_map (links self))
            then Raise err else Return tt) as Hbody.
  { unfold validate_node. rewrite Hty. simpl. reflexivity. }
  split; [|split].
  - intros Hn. apply not_in_to_map in Hn. rewrite Hn in Hbody.
    exact (for_each_elem_Raise _ _ _ _ Hin Hbody).
  - intros Hret. apply validate_Return_Forall in Hret.
    rewrite Forall_forall in Hret. specialize (Hret node Hin).
    unfold locally_linked in Hret. by rewrite Hty in Hret.
  - intros Hpre. rewrite (validate_at_position self pre node post Hsplit Hpre).
    rewrite Hbody.
    destruct (not_in (number node) (link_to_map (links self))) eqn:E.
    + apply not_in_to_map in E as Hnever.
      split; [done|]. split; [|done].
      intros Htgt. by apply never_target_iff in Hnever.
    + apply in_to_map in E as Htgt.
      split; [intros Hnever; by apply never_target_iff in Hnever|].
      split; [done|]. intros Hlabels. split.
      * intros Hraise. unfold validate in Hraise. simpl in Hraise.
        apply for_each_Raise in Hraise
          as (pre' & later & post' & -> & _ & Hlater).
        apply output_error_origin in Hlater as [Ho Hl].
        destruct (Hlabels later); [|done|done].
        apply elem_of_app. right. apply elem_of_cons. by left.
      * intros Hnever. by apply never_target_iff in Hnever.
Qed.

Lemma not_in_from_map_ext (ls ls' : list Link) n :
  (is_source ls n <-> is_source ls' n) ->
  not_in n (link_from_map ls) = not_in n (link_from_map ls').
Proof.
  intros H. rewrite <- !in_from_map in H.
  destruct (not_in n (link_from_map ls)), (not_in n (link_from_map ls'));
    [done| |symmetry|done]; by apply H.
Qed.

Lemma not_in_to_map_ext (ls ls' : list Link) n :
  (is_target ls n <-> is_target ls' n) ->
  not_in n (link_to_map ls) = not_in n (link_to_map ls').
Proof.
  intros H. rewrite <- !in_to_map in H.
  destruct (not_in n (link_to_map ls)), (not_in n (link_to_map ls'));
    [done| |symmetry|done]; by apply H.
Qed.

Lemma for_each_ext {A} (f g : A -> result unit) (l : list A) :
  (forall a, f a = g a) -> for_each f l = for_each g l.
Proof.
  intros H. induction l as [|a l IH]; simpl; [done|]. by rewrite H, IH.
Qed.

(** C4.  The graph input(1) -> asset(2) -> output(3) passes [validate].
    In general [validate] returns exactly when every node meets its local
    requirement, which asks for the existence of links only; and two link
    lists with the same sources and the same targets give the same outcome,
    however many links share a source or a target. *)
Theorem minimal_graph_validates :
  validate (minimal_graph (DataType:=DataType) (Handle:=Handle)) = Return tt
  /\ (forall self,
        validate self = Return tt <->
        Forall (locally_linked (links self)) (nodes self))
  /\ (forall self ls',
        (forall n, is_source (links self) n <-> is_source ls' n) ->
        (forall n, is_target (links self) n <-> is_target ls' n) ->
        validate (mkPipeline (nodes self) ls' (instance self)) = validate self).
Proof.
  split; [vm_compute; reflexivity|]. split.
  - intros self. unfold validate. rewrite for_each_Return.
    apply Forall_iff. intros node. apply validate_node_Return.
  - intros self ls' Hs Ht. unfold validate. simpl. apply for_each_ext.
    intros node. unfold validate_node.
    by rewrite <- (not_in_from_map_ext _ _ _ (Hs (number node))),
               <- (not_in_to_map_ext _ _ _ (Ht (number node))).
Qed.

End ValidateClaims.

(** The theorems at concrete graphs. *)

Lemma input_node_not_linked_out_witness :
  validate (without_link_1_2 (DataType:=unit) (Handle:=unit))
    = Raise (ValueError "Input node input not linked out").
Proof.
  destruct (input_node_not_linked_out
              (without_link_1_2 (DataType:=unit) (Handle:=unit)) []
              (mkNode 1 "input" INPUT []) (tail minimal_nodes)
              eq_refl eq_refl)
    as (_ & _ & H).
  destruct (H ltac:(constructor)) as (Hraise & _).
  apply Hraise.
  intros link Hl. simpl in Hl. apply list_elem_of_singleton in Hl.
  subst link. simpl. lia.
Defined.

(** With two unlinked INPUT nodes only the first is reported: the second
    has no outgoing link either and [validate] does not name it.  With two
    INPUT nodes of one label, the first linked out and the second not, the
    error names the label of the first, which is linked out. *)
Lemma input_node_report_is_not_exact :
  (let self := two_unlinked_inputs (DataType:=unit) (Handle:=unit) in
   let node := mkNode (DataType:=unit) 2 "second" INPUT [] in
   node ∈ nodes self /\ type node = INPUT
   /\ never_source (links self) (number node)
   /\ validate self = Raise (ValueError "Input node first not linked out")
   /\ validate self
      <> Raise (ValueError
                 ("Input node " +:+ label node +:+ " not linked out")))
  /\ (let self := same_label_inputs (DataType:=unit) (Handle:=unit) in
      let node := mkNode (DataType:=unit) 1 "in" INPUT [] in
      node ∈ nodes self /\ type node = INPUT
      /\ validate self
         = Raise (ValueError
                    ("Input node " +:+ label node +:+ " not linked out"))
      /\ ~ never_source (links self) (number node)).
Proof.
  split; simpl.
  - split; [|split; [|split; [|split]]].
    + apply elem_of_cons. right. apply elem_of_cons. by left.
    + reflexivity.
    + intros link Hin. inversion Hin.
    + vm_compute. reflexivity.
    + vm_compute. discriminate.
  - split; [|split; [|split]].
    + apply elem_of_cons. by left.
    + reflexivity.
    + vm_compute. reflexivity.
    + intros Hnever. apply (Hnever (mkLink 1 2 [])); [|reflexivity].
      by apply list_elem_of_singleton.
Qed.

Lemma output_node_not_linked_in_witness :
  validate (mkPipeline (DataType:=unit) (Handle:=unit)
              [mkNode 1 "input" INPUT []; mkNode 3 "output" OUTPUT []]
              [mkLink 1 2 []] None)
    = Raise (ValueError "Output node output not linked in").
Proof.
  destruct (output_node_not_linked_in
              (mkPipeline (DataType:=unit) (Handle:=unit)
                 [mkNode 1 "input" INPUT []; mkNode 3 "output" OUTPUT []]
                 [mkLink 1 2 []] None)
              [mkNode 1 "input" INPUT []] (mkNode 3 "output" OUTPUT []) []
              eq_refl eq_refl)
    as (_ & _ & H).
  destruct H as (Hraise & _).
  - constructor; [|constructor]. exists (mkLink 1 2 []).
    split; [apply list_elem_of_singleton|]; reflexivity.
  - apply Hraise. intros link Hl. simpl in Hl.
    apply list_elem_of_singleton in Hl. subst link. simpl. lia.
Defined.

(** On the graph input(1) -> asset(2), output(3) the output node is the
    target of no link, and the error [validate] raises is that of the asset
    node, which comes first.  With two OUTPUT nodes of one label, the first
    linked in and the second not, the error names the label of the first,
    which is linked in. *)
Lemma output_node_report_is_not_exact :
  (let self := without_link_2_3 (DataType:=unit) (Handle:=unit) in
   let node := mkNode (DataType:=unit) 3 "output" OUTPUT [] in
   node ∈ nodes self /\ type node = OUTPUT
   /\ never_target (links self) (number node)
   /\ validate self = Raise (ValueError "Node asset not linked in")
   /\ validate self
      <> Raise (ValueError
                 ("Output node " +:+ label node +:+ " not linked in")))
  /\ (let self := same_label_outputs (DataType:=unit) (Handle:=unit) in
      let node := mkNode (DataType:=unit) 1 "out" OUTPUT [] in
      node ∈ nodes self /\ type node = OUTPUT
      /\ validate self
         = Raise (ValueError
                    ("Output node " +:+ label node +:+ " not linked in"))
      /\ ~ never_target (links self) (number node)).
Proof.
  split; simpl.
  - split; [|split; [|split; [|split]]].
    + unfold minimal_nodes. rewrite !elem_of_cons. auto.
    + reflexivity.
    + intros link Hin. apply list_elem_of_singleton in Hin. subst link.
      simpl. lia.
    + vm_compute. reflexivity.
    + vm_compute. discriminate.
  - split; [|split; [|split]].
    + apply elem_of_cons. by left.
    + reflexivity.
    + vm_compute. reflexivity.
    + intros Hnever. apply (Hnever (mkLink 2 1 [])); [|reflexivity].
      by apply list_elem_of_singleton.
Qed.

Lemma minimal_graph_validates_witness :
  validate (mkPipeline (DataType:=unit) (Handle:=unit) minimal_nodes
              [mkLink 1 2 []; mkLink 1 2 []; mkLink 2 3 []; mkLink 2 3 []]
              None)
    = Return tt.
Proof.
  destruct (minimal_graph_validates (DataType:=unit) (Handle:=unit))
    as (Hmin & _ & Hext).
  rewrite <- Hmin.
  apply (Hext minimal_graph
           [mkLink 1 2 []; mkLink 1 2 []; mkLink 2 3 []; mkLink 2 3 []]).
  - intros n. unfold is_source. simpl. split.
    + intros (link & Hl & <-). exists link. split; [|reflexivity].
      rewrite !elem_of_cons in Hl. rewrite !elem_of_cons. tauto.
    + intros (link & Hl & <-). exists link. split; [|reflexivity].
      rewrite !elem_of_cons in Hl. rewrite !elem_of_cons. tauto.
  - intros n. unfold is_target. simpl. split.
    + intros (link & Hl & <-). exists link. split; [|reflexivity].
      rewrite !elem_of_cons in Hl. rewrite !elem_of_cons. tauto.
    + intros (link & Hl & <-). exists link. split; [|reflexivity].
      rewrite !elem_of_cons in Hl. rewrite !elem_of_cons. tauto.
Defined.

(** ** Properties of [to_dict] *)

Section ToDictProperties.

Context {DataType Handle : Type}.
Context (asdict_Node : Node DataType -> pyval).
Implicit Types (self : Pipeline DataType Handle) (link : Link).

Lemma to_dict_param_asdict (pm : ParamMapping) :
  to_dict_param (asdict_ParamMapping pm) = Return (wire_param pm).
Proof. reflexivity. Qed.

Lemma mapM_to_dict_param (pms : list ParamMapping) :
  mapM to_dict_param (asdict_ParamMapping <$> pms)
  = Return (wire_param <$> pms).
Proof.
  induction pms as [|pm pms IH]; [reflexivity|].
  rewrite !fmap_cons. cbn [mapM]. rewrite to_dict_param_asdict, IH.
  reflexivity.
Qed.

Lemma to_dict_link_fields (f t : pyval) (params : list pyval) :
  to_dict_link
    (PDict [("from_node", f); ("to_node", t); ("paramMapping", PList params)])
  = params' ← mapM to_dict_param params;
    Return (PDict [("paramMapping", PList params'); ("from", f); ("to", t)]).
Proof. destruct params; reflexivity. Qed.

Lemma to_dict_link_asdict link :
  to_dict_link (asdict_Link link) = Return (serialized_link link).
Proof.
  unfold asdict_Link. rewrite to_dict_link_fields, mapM_to_dict_param.
  reflexivity.
Qed.

Lemma mapM_to_dict_link (ls : list Link) :
  mapM to_dict_link (asdict_Link <$> ls) = Return (serialized_link <$> ls).
Proof.
  induction ls as [|link ls IH]; [reflexivity|].
  rewrite !fmap_cons. cbn [mapM]. rewrite to_dict_link_asdict, IH.
  reflexivity.
Qed.

Lemma py_eqb_list_cons (x y : pyval) (l l' : list pyval) :
  py_eqb (PList (x :: l)) (PList (y :: l'))
  = py_eqb x y && py_eqb (PList l) (PList l').
Proof. reflexivity. Qed.

Lemma py_eqb_wire_param (pm : ParamMapping) :
  py_eqb (wire_param pm) (wire_param pm) = true.
Proof.
  unfold wire_param. simpl. rewrite !String.eqb_refl. reflexivity.
Qed.

Lemma py_eqb_wire_params (pms : list ParamMapping) :
  py_eqb (PList (wire_param <$> pms)) (PList (wire_param <$> pms)) = true.
Proof.
  induction pms as [|pm pms IH]; [reflexivity|].
  rewrite fmap_cons, py_eqb_list_cons, py_eqb_wire_param, IH. reflexivity.
Qed.

Lemma py_eqb_dict3 (k1 k2 k3 : string) (a1 a2 a3 b1 b2 b3 : pyval) :
  k1 <> k2 -> k1 <> k3 -> k2 <> k3 ->
  py_eqb a1 b1 = true -> py_eqb a2 b2 = true -> py_eqb a3 b3 = true ->
  py_eqb (PDict [(k1, a1); (k2, a2); (k3, a3)])
         (PDict [(k2, b2); (k3, b3); (k1, b1)]) = true.
Proof.
  intros H12 H13 H23 E1 E2 E3. simpl.
  repeat (rewrite ?decide_True by done; rewrite ?decide_False by done).
  rewrite E1, E2, E3. reflexivity.
Qed.

Lemma py_eqb_serialized_link link :
  py_eqb (serialized_link link) (wire_link link) = true.
Proof.
  apply py_eqb_dict3; try done.
  - apply py_eqb_wire_params.
  - apply Z.eqb_refl.
  - apply Z.eqb_refl.
Qed.

Lemma to_dict_Return self :
  to_dict asdict_Node self
    = Return (PDict [("nodes", PList (asdict_Node <$> nodes self));
                     ("links", PList (serialized_link <$> links self))]).
Proof.
  unfold to_dict, asdict.
  change (dict_get "links" _)
    with (Some (PList (asdict_Link <$> links self))).
  cbv beta iota. rewrite mapM_to_dict_link. reflexivity.
Qed.

(** C7.  [to_dict] returns the dict with the keys [nodes] and [links]; the
    i-th entry of either list comes from the i-th node or link of the
    pipeline.  A link is serialized with its numbers under [from] and [to]
    and no [from_node] or [to_node] key left, its parameter mapping entries
    with their names under [from] and [to] and no [from_param] or [to_param]
    key left: as a mapping it is the link of the wire format.  The link
    1 -> 2 with the mapping x -> y serializes to
    [{"from": 1, "to": 2, "paramMapping": [{"from": "x", "to": "y"}]}]. *)
Theorem to_dict_wire_format self :
  to_dict asdict_Node self
    = Return (PDict [("nodes", PList (asdict_Node <$> nodes self));
                     ("links", PList (serialized_link <$> links self))])
  /\ (forall i,
        (asdict_Node <$> nodes self) !! i = asdict_Node <$> (nodes self !! i)
        /\ (serialized_link <$> links self) !! i
             = serialized_link <$> (links self !! i))
  /\ (forall link,
        py_eqb (serialized_link link) (wire_link link) = true
        /\ exists d, serialized_link link = PDict d
             /\ dict_get "from" d = Some (PInt (from_node link))
             /\ dict_get "to" d = Some (PInt (to_node link))
             /\ dict_get "from_node" d = None
             /\ dict_get "to_node" d = None
             /\ dict_get "paramMapping" d
                  = Some (PList (wire_param <$> paramMapping link)))
  /\ (forall pm,
        exists d, wire_param pm = PDict d
          /\ dict_get "from" d = Some (PStr (from_param pm))
          /\ dict_get "to" d = Some (PStr (to_param pm))
          /\ dict_get "from_param" d = None
          /\ dict_get "to_param" d = None)
  /\ (exists d,
        to_dict asdict_Node
          (mkPipeline (Handle:=Handle) [] [example_link] None)
          = Return (PDict [("nodes", PList []); ("links", PList [d])])
        /\ py_eqb d
             (PDict [("from", PInt 1); ("to", PInt 2);
                     ("paramMapping",
                      PList [PDict [("from", PStr "x"); ("to", PStr "y")]])])
           = true).
Proof.
  split; [apply to_dict_Return|]. split.
  { intros i. by rewrite !list_lookup_fmap. }
  split.
  { intros link. split; [apply py_eqb_serialized_link|].
    eexists. split; [reflexivity|]. repeat split. }
  split.
  { intros pm. eexists. split; [reflexivity|]. repeat split. }
  eexists. split; reflexivity.
Qed.

End ToDictProperties.

(** ** Properties of [save], [run] and [router] *)

Section Dicts.

Context {V : Type}.
Implicit Types (d : list (string * V)) (k : string).

Lemma dict_get_set_eq k (v : V) d : dict_get k (dict_set k v d) = Some v.
Proof.
  induction d as [|[k' w] d IH]; simpl.
  - by rewrite decide_True.
  - destruct (decide (k' = k)) as [->|Hne]; simpl.
    + by rewrite decide_True.
    + by rewrite decide_False.
Qed.

Lemma dict_get_del_ne k k' d :
  k <> k' -> dict_get k (dict_del k' d) = dict_get k d.
Proof.
  intros Hne. induction d as [|[k0 w] d IH]; simpl; [done|].
  destruct (decide (k0 = k')) as [->|Hne'].
  - by rewrite decide_False.
  - simpl. by rewrite IH.
Qed.

End Dicts.

Section LifecycleProperties.

Context {DataType Handle RunArgs RunOutcome : Type}.
Context (asdict_Node : Node DataType -> pyval).
Context (uuid4 : nat -> string).
Context (PipelineFactory_create : World -> string -> pyval -> result Handle).
Context (handle_bool : Handle -> bool).
Context (handle_run : Handle -> RunArgs -> RunOutcome).
Context (default_label : NodeType -> Z -> string).
Implicit Types (self : Pipeline DataType Handle) (w : World).


(** C5.  When [validate] raises, [save] raises the same error and leaves the
    pipeline object, [instance] included, and the world as they were: no
    name is drawn and nothing is submitted.  When [validate] returns,
    [to_dict] returns a graph, the collaborator is called once, with the
    name drawn from [uuid4] and that graph; if it returns a handle, [save]
    returns the pipeline, which now holds the handle in [instance]; if it
    raises, the error is passed on and the pipeline is as before. *)
Theorem save_validates_then_submits self w :
  (forall e, validate self = Raise e ->
     save asdict_Node uuid4 PipelineFactory_create self w = (Raise e, self, w))
  /\ (validate self = Return tt ->
      let name := "pipeline-" +:+ uuid4 (entropy w) in
      let w1 := mkWorld (S (entropy w)) (submitted w) in
      exists graph,
        to_dict asdict_Node self = Return graph
        /\ let w2 := mkWorld (S (entropy w)) (submitted w ++ [(name, graph)]) in
           (forall h, PipelineFactory_create w1 name graph = Return h ->
              save asdict_Node uuid4 PipelineFactory_create self w
              = (Return (set_instance self h), set_instance self h, w2)
              /\ instance (set_instance self h) = Some h
              /\ nodes (set_instance self h) = nodes self
              /\ links (set_instance self h) = links self)
           /\ (forall e, PipelineFactory_create w1 name graph = Raise e ->
                 save asdict_Node uuid4 PipelineFactory_create self w
                 = (Raise e, self, w2))).
Proof.
  split.
  - intros e He. unfold save. by rewrite He.
  - intros Hv name w1. pose proof (to_dict_Return asdict_Node self) as Hd.
    eexists. split; [exact Hd|]. intros w2. split.
    + intros h Hh. repeat split. unfold save. rewrite Hv, Hd.
      fold name. simpl. fold w1. by rewrite Hh.
    + intros e He. unfold save. rewrite Hv, Hd.
      fold name. simpl. fold w1. by rewrite He.
Qed.


(** What [run] does whatever the truth value of a handle. *)
Lemma run_unsaved self (args : RunArgs) :
  instance self = None ->
  run handle_bool handle_run self args
  = Raise (ValueError "Pipeline not saved").
Proof. intros H. unfold run. by rewrite H. Qed.

(** C8.  [router] builds a node of type ROUTER, appended to the pipeline,
    whose [routes] are one [Route] per pair of the input, in the order of
    the input: the route of the pair (dataType, target) has value dataType,
    type CHECK_TYPE, operation EQUAL and the path [target]. *)
Theorem router_expands_routes self
    (routes : list (DataType * Node DataType)) args kwargs :
  let node := (router default_label self routes args kwargs).1 in
  let self' := (router default_label self routes args kwargs).2 in
  exists rs,
    dict_get "routes" (config node) = Some (KwRoutes rs)
    /\ type node = ROUTER
    /\ nodes self' = nodes self ++ [node]
    /\ length rs = length routes
    /\ (forall i, rs !! i =
          (fun route => mkRoute route.1 [route.2] CHECK_TYPE EQUAL)
            <$> (routes !! i))
    /\ (forall i route, rs !! i = Some route ->
          exists dataType target,
            routes !! i = Some (dataType, target)
            /\ route_value route = dataType
            /\ route_path route = [target]
            /\ route_type route = CHECK_TYPE
            /\ route_operation route = EQUAL).
Proof.
  intros node self'. eexists. split.
  { unfold node, router, Router. cbn [fst config].
    rewrite !dict_get_del_ne by done. apply dict_get_set_eq. }
  split; [reflexivity|]. split; [reflexivity|].
  split; [apply length_fmap|]. split.
  { intros i. apply list_lookup_fmap. }
  intros i route Hi. rewrite list_lookup_fmap in Hi.
  destruct (routes !! i) as [[dataType target]|]; [|discriminate].
  injection Hi as <-. exists dataType, target. repeat split.
Qed.

(** C10.  With no nodes [validate] returns, whatever the links.  [save] on
    the pipeline without nodes and links calls the collaborator with the
    empty graph; the handle it returns is stored, the error it raises is
    passed on. *)
Theorem empty_pipeline_is_valid :
  (forall ls inst,
     validate (mkPipeline (DataType:=DataType) (Handle:=Handle) [] ls inst)
     = Return tt)
  /\ (forall w,
        let fresh :=
          mkPipeline (DataType:=DataType) (Handle:=Handle) [] [] None in
        let name := "pipeline-" +:+ uuid4 (entropy w) in
        let graph := PDict [("nodes", PList []); ("links", PList [])] in
        let w1 := mkWorld (S (entropy w)) (submitted w) in
        let w2 := mkWorld (S (entropy w)) (submitted w ++ [(name, graph)]) in
        to_dict asdict_Node fresh = Return graph
        /\ save asdict_Node uuid4 PipelineFactory_create fresh w =
             match PipelineFactory_create w1 name graph with
             | Return h =>
                 (Return (set_instance fresh h), set_instance fresh h, w2)
             | Raise e => (Raise e, fresh, w2)
             end).
Proof.
  split; [reflexivity|]. intros w fresh name graph w1 w2.
  split; reflexivity.
Qed.

End LifecycleProperties.

(** The life cycle at a concrete collaborator: every submission is accepted
    and answered with the handle [tt], whose [run] echoes its argument. *)

Lemma save_validates_then_submits_witness :
  save (fun _ : Node unit => PNone) (fun _ => "0") (fun _ _ _ => Return tt)
    without_link_1_2 (mkWorld 0 [])
  = (Raise (ValueError "Input node input not linked out"),
     without_link_1_2, mkWorld 0 [])
  /\ exists graph,
       save (fun _ : Node unit => PNone) (fun _ => "0")
         (fun _ _ _ => Return tt) minimal_graph (mkWorld 0 [])
       = (Return (set_instance minimal_graph tt),
          set_instance minimal_graph tt,
          mkWorld 1 [("pipeline-0", graph)]).
Proof.
  pose proof (save_validates_then_submits (fun _ : Node unit => PNone)
                (fun _ => "0") (fun _ _ _ => Return tt)) as Hsave.
  split.
  - apply (proj1 (Hsave without_link_1_2 (mkWorld 0 []))).
    vm_compute. reflexivity.
  - destruct (proj2 (Hsave minimal_graph (mkWorld 0 [])))
      as (graph & _ & Hok & _); [vm_compute; reflexivity|].
    exists graph. apply (Hok tt). reflexivity.
Defined.



(** ** Properties of the serializer over the store *)

Section StoreProperties.

Import Store.

Implicit Types (h : heap) (v : val) (n l : nat) (o : obj).

Lemma depth_le_app d h new v : depth_le d h v -> depth_le d (h ++ new) v.
Proof.
  revert v. induction d as [|d IH]; intros [| | |l]; simpl; try done.
  destruct (h !! l) as [o|] eqn:E; [|done].
  rewrite (lookup_app_l_Some _ _ _ _ E).
  destruct o; intros H; eapply Forall_impl; eauto.
Qed.

Lemma fresh_val_mono n n' v : (n <= n')%nat -> fresh_val n' v -> fresh_val n v.
Proof. intros Hn. destruct v; simpl; try done. lia. Qed.

(** *** The copy allocates and changes nothing *)

Lemma copy_items_grows n copy items h items' h' :
  copy_grows n copy ->
  copy_items copy items h = Some (items', h') -> (n <= length h)%nat ->
  exists new, h' = h ++ new /\ Forall (fresh_obj n) new
    /\ Forall (fun kv => fresh_val n kv.2) items'.
Proof.
  intros Hcopy. revert h items' h'.
  induction items as [|[k v] items IH]; intros h items' h' Hc Hn; simpl in Hc.
  - injection Hc as <- <-. exists []. by rewrite app_nil_r.
  - destruct (copy v h) as [[v1 h1]|] eqn:E1; [|done].
    destruct (copy_items copy items h1) as [[items1 h2]|] eqn:E2; [|done].
    injection Hc as <- <-.
    destruct (Hcopy _ _ _ _ E1 Hn) as (new1 & -> & Hnew1 & Hv1).
    destruct (IH _ _ _ E2) as (new2 & -> & Hnew2 & Hitems).
    { rewrite length_app. lia. }
    exists (new1 ++ new2). rewrite app_assoc. split; [done|].
    split; [by apply Forall_app|]. by constructor.
Qed.

Lemma copy_elems_grows n copy elems h elems' h' :
  copy_grows n copy ->
  copy_elems copy elems h = Some (elems', h') -> (n <= length h)%nat ->
  exists new, h' = h ++ new /\ Forall (fresh_obj n) new
    /\ Forall (fresh_val n) elems'.
Proof.
  intros Hcopy. revert h elems' h'.
  induction elems as [|v elems IH]; intros h elems' h' Hc Hn; simpl in Hc.
  - injection Hc as <- <-. exists []. by rewrite app_nil_r.
  - destruct (copy v h) as [[v1 h1]|] eqn:E1; [|done].
    destruct (copy_elems copy elems h1) as [[elems1 h2]|] eqn:E2; [|done].
    injection Hc as <- <-.
    destruct (Hcopy _ _ _ _ E1 Hn) as (new1 & -> & Hnew1 & Hv1).
    destruct (IH _ _ _ E2) as (new2 & -> & Hnew2 & Helems).
    { rewrite length_app. lia. }
    exists (new1 ++ new2). rewrite app_assoc. split; [done|].
    split; [by apply Forall_app|]. by constructor.
Qed.

Lemma asdict_inner_grows n fuel : copy_grows n (asdict_inner fuel).
Proof.
  induction fuel as [|fuel IH]; intros v h v' h' Hc Hn; simpl in Hc; [done|].
  destruct v as [| | |l];
    try (injection Hc as <- <-; exists []; by rewrite app_nil_r).
  destruct (h !! l) as [[items|elems|cls items]|] eqn:El; [| | |done].
  - destruct (copy_items _ items h) as [[items1 h1]|] eqn:E1; [|done].
    injection Hc as <- <-.
    destruct (copy_items_grows _ _ _ _ _ _ IH E1 Hn) as (new & -> & Hnew & Hi).
    exists (new ++ [ODict items1]). rewrite app_assoc. split; [done|].
    split; [apply Forall_app; split; [done|by constructor]|].
    simpl. rewrite length_app. lia.
  - destruct (copy_elems _ elems h) as [[elems1 h1]|] eqn:E1; [|done].
    injection Hc as <- <-.
    destruct (copy_elems_grows _ _ _ _ _ _ IH E1 Hn) as (new & -> & Hnew & Hi).
    exists (new ++ [OList elems1]). rewrite app_assoc. split; [done|].
    split; [apply Forall_app; split; [done|by constructor]|].
    simpl. rewrite length_app. lia.
  - destruct (copy_items _ items h) as [[items1 h1]|] eqn:E1; [|done].
    injection Hc as <- <-.
    destruct (copy_items_grows _ _ _ _ _ _ IH E1 Hn) as (new & -> & Hnew & Hi).
    exists (new ++ [ODict items1]). rewrite app_assoc. split; [done|].
    split; [apply Forall_app; split; [done|by constructor]|].
    simpl. rewrite length_app. lia.
Qed.

(** *** On an acyclic object graph the copy returns *)

Lemma copy_items_total d items h :
  (forall v h, depth_le d h v -> is_Some (asdict_inner (S d) v h)) ->
  Forall (fun kv => depth_le d h kv.2) items ->
  is_Some (copy_items (asdict_inner (S d)) items h).
Proof.
  intros Hcopy. revert h.
  induction items as [|[k v] items IH]; intros h Hall; cbn [copy_items];
    [done|].
  apply Forall_cons in Hall as [Hv Hall]. cbn [snd] in Hv.
  destruct (Hcopy _ _ Hv) as [[v1 h1] E1]. rewrite E1.
  destruct (asdict_inner_grows 0 _ _ _ _ _ E1) as (new & -> & _); [lia|].
  destruct (IH (h ++ new)) as [[items1 h2] E2].
  { eapply Forall_impl; [exact Hall|]. intros kv. apply depth_le_app. }
  by rewrite E2.
Qed.

Lemma copy_elems_total d elems h :
  (forall v h, depth_le d h v -> is_Some (asdict_inner (S d) v h)) ->
  Forall (depth_le d h) elems ->
  is_Some (copy_elems (asdict_inner (S d)) elems h).
Proof.
  intros Hcopy. revert h.
  induction elems as [|v elems IH]; intros h Hall; cbn [copy_elems];
    [done|].
  apply Forall_cons in Hall as [Hv Hall].
  destruct (Hcopy _ _ Hv) as [[v1 h1] E1]. rewrite E1.
  destruct (asdict_inner_grows 0 _ _ _ _ _ E1) as (new & -> & _); [lia|].
  destruct (IH (h ++ new)) as [[elems1 h2] E2].
  { eapply Forall_impl; [exact Hall|]. intros w. apply depth_le_app. }
  by rewrite E2.
Qed.

Lemma asdict_inner_S fuel v h :
  asdict_inner (S fuel) v h =
    match v with
    | VRef l =>
        match h !! l with
        | Some (OInstance _ items) | Some (ODict items) =>
            match copy_items (asdict_inner fuel) items h with
            | Some (items', h) => Some (alloc (ODict items') h)
            | None => None
            end
        | Some (OList elems) =>
            match copy_elems (asdict_inner fuel) elems h with
            | Some (elems', h) => Some (alloc (OList elems') h)
            | None => None
            end
        | None => None
        end
    | _ => Some (v, h)
    end.
Proof. reflexivity. Qed.

Lemma asdict_inner_total d v h :
  depth_le d h v -> is_Some (asdict_inner (S d) v h).
Proof.
  revert v h. induction d as [|d IH]; intros v h Hd.
  - destruct v; simpl in *; done.
  - destruct v as [| | |l]; try done.
    cbn [depth_le] in Hd. rewrite asdict_inner_S.
    destruct (h !! l) as [[items|elems|cls items]|]; [| | |done].
    + destruct (copy_items_total d items h IH Hd) as [[items1 h1] E].
      by rewrite E.
    + destruct (copy_elems_total d elems h IH Hd) as [[elems1 h1] E].
      by rewrite E.
    + destruct (copy_items_total d items h IH Hd) as [[items1 h1] E].
      by rewrite E.
Qed.

(** *** The loops update copies only *)

Lemma framed_bind {A B} n (Q : A -> Prop) (R : B -> Prop)
    (m : stateful A) (k : A -> stateful B) :
  framed n Q m -> (forall a, Q a -> framed n R (k a)) ->
  framed n R (st_bind m k).
Proof.
  intros Hm Hk h r h' Hrun Hcl. unfold st_bind in Hrun.
  destruct (m h) as [[a|e] h1] eqn:E.
  - destruct (Hm _ _ _ E Hcl) as (Hcl1 & Hlen1 & Hlow1 & Hq).
    destruct (Hk a (Hq a eq_refl) _ _ _ Hrun Hcl1)
      as (Hcl2 & Hlen2 & Hlow2 & Hr).
    split; [done|]. split; [congruence|]. split; [|done].
    intros l Hl. rewrite Hlow2, Hlow1; done.
  - injection Hrun as <- <-.
    destruct (Hm _ _ _ E Hcl) as (Hcl1 & Hlen1 & Hlow1 & _).
    repeat split; try done.
Qed.

Lemma framed_skip {A} n (Q : A -> Prop) (r : result A) :
  (forall a, r = Return a -> Q a) -> framed n Q (fun h => (r, h)).
Proof. intros Hq h r' h' [= <- <-] Hcl. repeat split; done. Qed.

Lemma framed_update n h l o :
  fresh_closed n h -> (n <= l)%nat -> fresh_obj n o ->
  fresh_closed n (<[l := o]> h) /\ length (<[l := o]> h) = length h
  /\ (forall l', (l' < n)%nat -> <[l := o]> h !! l' = h !! l').
Proof.
  intros Hcl Hl Ho. split; [|split].
  - intros l' o' Hl' Hlook.
    destruct (decide (l = l')) as [<-|Hne].
    + apply list_lookup_insert_Some in Hlook as [(_ & <- & _)|[? _]]; done.
    + rewrite list_lookup_insert_ne in Hlook by done. eauto.
  - apply length_insert.
  - intros l' Hl'. apply list_lookup_insert_ne. lia.
Qed.

Lemma fresh_dict_get n key (d : list (string * val)) v :
  Forall (fun kv => fresh_val n kv.2) d -> dict_get key d = Some v ->
  fresh_val n v.
Proof.
  induction 1 as [|[k w] d Hw _ IH]; simpl; [done|].
  destruct (decide (k = key)); [by intros [= <-]|done].
Qed.

Lemma fresh_dict_del n key (d : list (string * val)) :
  Forall (fun kv => fresh_val n kv.2) d ->
  Forall (fun kv => fresh_val n kv.2) (dict_del key d).
Proof.
  induction 1 as [|[k w] d Hw Hd IH]; simpl; [done|].
  destruct (decide (k = key)); [done|by constructor].
Qed.

Lemma fresh_dict_set n key v (d : list (string * val)) :
  fresh_val n v -> Forall (fun kv => fresh_val n kv.2) d ->
  Forall (fun kv => fresh_val n kv.2) (dict_set key v d).
Proof.
  intros Hv. induction 1 as [|[k w] d Hw Hd IH]; simpl.
  - by repeat constructor.
  - destruct (decide (k = key)); by constructor.
Qed.

Lemma framed_pop n target key :
  fresh_val n target -> framed n (fresh_val n) (pop target key).
Proof.
  intros Ht h r h' Hrun Hcl. unfold pop in Hrun.
  destruct target as [| | |l];
    try (injection Hrun as <- <-; repeat split; done).
  simpl in Ht.
  destruct (h !! l) as [[d|elems|cls d]|] eqn:El;
    try (injection Hrun as <- <-; repeat split; done).
  pose proof (Hcl _ _ Ht El) as Hd. simpl in Hd.
  destruct (dict_get key d) as [v|] eqn:Eg;
    [|injection Hrun as <- <-; repeat split; done].
  injection Hrun as <- <-.
  destruct (framed_update n h l (ODict (dict_del key d)) Hcl Ht)
    as (? & ? & ?); [by apply fresh_dict_del|].
  repeat split; try done. intros a [= <-]. by eapply fresh_dict_get.
Qed.

Lemma framed_setitem n target key v :
  fresh_val n target -> fresh_val n v ->
  framed n (fun _ => True) (setitem target key v).
Proof.
  intros Ht Hv h r h' Hrun Hcl. unfold setitem in Hrun.
  destruct target as [| | |l];
    try (injection Hrun as <- <-; repeat split; done).
  simpl in Ht.
  destruct (h !! l) as [[d|elems|cls d]|] eqn:El;
    try (injection Hrun as <- <-; repeat split; done).
  pose proof (Hcl _ _ Ht El) as Hd. simpl in Hd.
  injection Hrun as <- <-.
  destruct (framed_update n h l (ODict (dict_set key v d)) Hcl Ht)
    as (? & ? & ?); [by apply fresh_dict_set|].
  repeat split; done.
Qed.

Lemma framed_getitem n target key :
  fresh_val n target -> framed n (fresh_val n) (getitem target key).
Proof.
  intros Ht h r h' Hrun Hcl. unfold getitem in Hrun.
  destruct target as [| | |l];
    try (injection Hrun as <- <-; repeat split; done).
  simpl in Ht.
  destruct (h !! l) as [[d|elems|cls d]|] eqn:El;
    try (injection Hrun as <- <-; repeat split; done).
  pose proof (Hcl _ _ Ht El) as Hd. simpl in Hd.
  destruct (dict_get key d) as [v|] eqn:Eg;
    injection Hrun as <- <-; repeat split; try done.
  intros a [= <-]. by eapply fresh_dict_get.
Qed.

Lemma framed_get n target key :
  fresh_val n target ->
  framed n (fun found => forall v, found = Some v -> fresh_val n v)
    (get target key).
Proof.
  intros Ht h r h' Hrun Hcl. unfold get in Hrun.
  destruct target as [| | |l];
    try (injection Hrun as <- <-; repeat split; done).
  simpl in Ht.
  destruct (h !! l) as [[d|elems|cls d]|] eqn:El;
    try (injection Hrun as <- <-; repeat split; done).
  pose proof (Hcl _ _ Ht El) as Hd. simpl in Hd.
  injection Hrun as <- <-. repeat split; try done.
  intros a [= <-] v Hv. by eapply fresh_dict_get.
Qed.

Lemma framed_iterate n v :
  fresh_val n v -> framed n (Forall (fresh_val n)) (iterate v).
Proof.
  intros Ht h r h' Hrun Hcl. unfold iterate in Hrun.
  destruct v as [| |s|l];
    try (injection Hrun as <- <-; repeat split; done).
  - injection Hrun as <- <-. repeat split; try done.
    intros a [= <-]. apply Forall_fmap, Forall_true. done.
  - simpl in Ht.
    destruct (h !! l) as [[d|elems|cls d]|] eqn:El;
      try (injection Hrun as <- <-; repeat split; done).
    + injection Hrun as <- <-. repeat split; try done.
      intros a [= <-]. apply Forall_fmap, Forall_true. done.
    + pose proof (Hcl _ _ Ht El) as Hd. simpl in Hd.
      injection Hrun as <- <-. repeat split; try done. by intros a [= <-].
Qed.

Lemma framed_for_each n (body : val -> stateful unit) (l : list val) :
  (forall v, fresh_val n v -> framed n (fun _ => True) (body v)) ->
  Forall (fresh_val n) l -> framed n (fun _ => True) (st_for_each body l).
Proof.
  intros Hbody. induction 1 as [|v l Hv _ IH]; simpl.
  - by apply framed_skip.
  - eapply framed_bind; [by apply Hbody|]. intros _ _. exact IH.
Qed.

Lemma framed_rename_key n target old new :
  fresh_val n target -> framed n (fun _ => True) (rename_key target old new).
Proof.
  intros Ht. eapply framed_bind; [by apply framed_pop|].
  intros v Hv. by apply framed_setitem.
Qed.

Lemma framed_to_dict_param n param :
  fresh_val n param -> framed n (fun _ => True) (to_dict_param param).
Proof.
  intros Hp. eapply framed_bind; [by apply framed_rename_key|].
  intros _ _. by apply framed_rename_key.
Qed.

Lemma framed_to_dict_link n link :
  fresh_val n link -> framed n (fun _ => True) (to_dict_link link).
Proof.
  intros Hl. eapply framed_bind; [by apply framed_rename_key|]. intros _ _.
  eapply framed_bind; [by apply framed_rename_key|]. intros _ _.
  eapply framed_bind; [by apply framed_get|]. intros [params|] Hfound.
  - intros h r h' Hrun Hcl. destruct (truthy params h).
    + revert h r h' Hrun Hcl. eapply framed_bind.
      * apply framed_iterate. by apply Hfound.
      * intros elems Helems. apply framed_for_each; [|done].
        intros v Hv. by apply framed_to_dict_param.
    + injection Hrun as <- <-. repeat split; done.
  - by apply framed_skip.
Qed.

Lemma fresh_closed_app h new :
  Forall (fresh_obj (length h)) new -> fresh_closed (length h) (h ++ new).
Proof.
  intros Hnew l o Hl Hlook. rewrite lookup_app_r in Hlook by done.
  rewrite Forall_lookup in Hnew. eauto.
Qed.

Lemma framed_to_dict_loops n obj :
  fresh_val n obj -> framed n (fun _ => True) (to_dict_loops obj).
Proof.
  intros Hobj. eapply framed_bind; [by apply framed_getitem|].
  intros links Hlinks. eapply framed_bind; [by apply framed_iterate|].
  intros elems Helems. eapply framed_bind.
  - apply framed_for_each; [|done]. intros v Hv. by apply framed_to_dict_link.
  - intros _ _. by apply framed_skip.
Qed.

Lemma to_dict_loops_result obj h v h' :
  to_dict_loops obj h = (Return v, h') -> v = obj.
Proof.
  unfold to_dict_loops, st_bind. intros Hrun.
  repeat match type of Hrun with
  | (match ?m with _ => _ end) = _ =>
      destruct m as [[?|?] ?]; try discriminate
  end.
  by injection Hrun as <- _.
Qed.

Lemma to_dict_frame fuel self h r h' :
  to_dict fuel self h = Some (r, h') ->
  (length h <= length h')%nat
  /\ (forall l o, h !! l = Some o -> h' !! l = Some o).
Proof.
  unfold to_dict. intros Hrun.
  destruct (h !! self) as [[| |cls items]|] eqn:Eself;
    try (injection Hrun as <- <-; done).
  destruct (asdict_inner fuel (VRef self) h) as [[obj h1]|] eqn:E; [|done].
  injection Hrun as Hrun.
  destruct (asdict_inner_grows (length h) _ _ _ _ _ E)
    as (new & -> & Hnew & Hobj); [done|].
  destruct (framed_to_dict_loops (length h) obj Hobj _ _ _ Hrun)
    as (_ & Hlen & Hlow & _); [by apply fresh_closed_app|].
  split.
  - rewrite Hlen, length_app. lia.
  - intros l o Hl. rewrite Hlow by (by eapply lookup_lt_Some).
    by apply lookup_app_l_Some.
Qed.

Lemma to_dict_returns_new_object fuel self h v h' :
  to_dict fuel self h = Some (Return v, h') ->
  exists l, v = VRef l /\ (length h <= l)%nat.
Proof.
  unfold to_dict. intros Hrun.
  destruct (h !! self) as [[| |cls items]|] eqn:Eself; try done.
  destruct (asdict_inner fuel (VRef self) h) as [[obj h1]|] eqn:E; [|done].
  injection Hrun as Hrun. apply to_dict_loops_result in Hrun as ->.
  destruct fuel as [|fuel]; [done|]. rewrite asdict_inner_S, Eself in E.
  destruct (copy_items _ items h) as [[items1 h2]|] eqn:E1; [|done].
  injection E as <- <-. eexists. split; [done|].
  destruct (copy_items_grows 0 _ _ _ _ _ (asdict_inner_grows 0 fuel) E1)
    as (new & -> & _); [lia|]. rewrite length_app. lia.
Qed.

(** C9.  [to_dict] on the pipeline at [self] leaves every object of the
    store as it was: the pipeline, its two lists, each node, link and
    mapping entry hold what they held, under the same field names; the store
    only gains objects, the dict returned is one of the new ones, and the
    renaming is done there.  On an object graph without cycles the call does
    return.  In the example the link at 2 keeps [from_node] and [to_node]
    and its copy at 9 has [from] and [to]. *)
Theorem to_dict_leaves_pipeline_unchanged :
  (forall fuel self h r h',
     to_dict fuel self h = Some (r, h') ->
     (length h <= length h')%nat
     /\ (forall l o, h !! l = Some o -> h' !! l = Some o)
     /\ (forall v, r = Return v -> exists l, v = VRef l /\ (length h <= l)%nat))
  /\ (forall d self h,
        depth_le d h (VRef self) ->
        exists r h', to_dict (S d) self h = Some (r, h'))
  /\ to_dict 6 5 example_heap
      = Some (Return (VRef 11),
              example_heap ++
              [OList [];
               ODict [("from", VStr "x"); ("to", VStr "y")];
               OList [VRef 7];
               ODict [("paramMapping", VRef 8); ("from", VInt 1);
                      ("to", VInt 2)];
               OList [VRef 9];
               ODict [("nodes", VRef 6); ("links", VRef 10)]]).
Proof.
  split; [|split].
  - intros fuel self h r h' Hrun.
    destruct (to_dict_frame _ _ _ _ _ Hrun) as [Hlen Hlow].
    split; [done|]. split; [done|].
    intros v ->. by eapply to_dict_returns_new_object.
  - intros d self h Hd. unfold to_dict.
    destruct (asdict_inner_total d _ _ Hd) as [[obj h1] ->].
    destruct (h !! self) as [[| |cls items]|]; eauto.
    destruct (to_dict_loops obj h1) as [r h']. eauto.
  - vm_compute. reflexivity.
Qed.

(** On the example the two models agree: the dict returned in the store
    reads as the value of the pure [to_dict]. *)
Lemma store_to_dict_example_agrees :
  exists v h' data,
    Store.to_dict 6 5 example_heap = Some (Return v, h')
    /\ read 6 h' v = Some data
    /\ to_dict_example = Return data.
Proof. do 3 eexists. split; [|split]; vm_compute; reflexivity. Qed.

End StoreProperties.

Lemma to_dict_leaves_pipeline_unchanged_witness :
  exists r h',
    Store.to_dict 6 5 Store.example_heap = Some (r, h')
    /\ h' !! 2%nat
       = Some (Store.OInstance "Link"
                 [("from_node", Store.VInt 1); ("to_node", Store.VInt 2);
                  ("paramMapping", Store.VRef 4)])
    /\ h' !! 1%nat
       = Some (Store.OInstance "ParamMapping"
                 [("from_param", Store.VStr "x");
                  ("to_param", Store.VStr "y")]).
Proof.
  destruct (proj1 (proj2 to_dict_leaves_pipeline_unchanged) 5%nat 5%nat
              Store.example_heap) as (r & h' & Hrun).
  { vm_compute. repeat constructor. }
  exists r, h'. split; [exact Hrun|].
  destruct (proj1 to_dict_leaves_pipeline_unchanged _ _ _ _ _ Hrun)
    as (_ & Hlow & _).
  split; apply Hlow; reflexivity.
Defined.

(** * Further properties of the pipeline *)

Section MoreValidate.

Context {DataType Handle : Type}.
Implicit Types (self : Pipeline DataType Handle) (node : Node DataType).
Implicit Types (ls : list Link).

Lemma locally_linked_more_links ls extra node :
  locally_linked ls node -> locally_linked (ls ++ extra) node.
Proof.
  assert (forall n, is_source ls n -> is_source (ls ++ extra) n) as Hs.
  { intros n (link & Hin & Heq). exists link. split; [|done].
    apply elem_of_app. by left. }
  assert (forall n, is_target ls n -> is_target (ls ++ extra) n) as Ht.
  { intros n (link & Hin & Heq). exists link. split; [|done].
    apply elem_of_app. by left. }
  unfold locally_linked.
  destruct (type node); intros Hl; try (destruct Hl; split); auto.
Qed.

Lemma validate_Return_iff self :
  validate self = Return tt <->
  Forall (locally_linked (links self)) (nodes self).
Proof.
  unfold validate. rewrite for_each_Return.
  apply Forall_iff. intros node. apply validate_node_Return.
Qed.

(** X1.  [validate] raises [e] exactly when the nodes split into nodes that
    meet their requirement, followed by a node whose check raises [e]: the
    error is that of the first failing node in insertion order, and nodes
    after it are not looked at. *)
Theorem validate_raises_at_first_failing_node self e :
  validate self = Raise e <->
  exists pre node post,
    nodes self = pre ++ node :: post
    /\ Forall (locally_linked (links self)) pre
    /\ ~ locally_linked (links self) node
    /\ validate_node (link_from_map (links self)) (link_to_map (links self))
         node = Raise e.
Proof.
  unfold validate. rewrite for_each_Raise. split.
  - intros (pre & node & post & Hsplit & Hpre & Hnode).
    exists pre, node, post. split; [done|]. split; [|split; [|done]].
    + eapply Forall_impl; [exact Hpre|]. intros n. apply validate_node_Return.
    + rewrite <- validate_node_Return. congruence.
  - intros (pre & node & post & Hsplit & Hpre & _ & Hnode).
    exists pre, node, post. split; [done|]. split; [|done].
    eapply Forall_impl; [exact Hpre|]. intros n. apply validate_node_Return.
Qed.

(** X2.  A pipeline that passes [validate] still passes after any links are
    added, whatever their end points: [validate] never looks for the nodes
    a link refers to. *)
Theorem validate_accepts_more_links self extra :
  validate self = Return tt ->
  validate (mkPipeline (nodes self) (links self ++ extra) (instance self))
  = Return tt.
Proof.
  rewrite !validate_Return_iff. simpl. intros H.
  eapply Forall_impl; [exact H|]. intros node.
  apply locally_linked_more_links.
Qed.

(** X3.  A pipeline that passes [validate] still passes when its node list
    is replaced by any list drawn from the same nodes, in any order and
    number: removing a node leaves its links behind and they are accepted. *)
Theorem validate_accepts_fewer_nodes self (ns : list (Node DataType)) :
  ns ⊆ nodes self ->
  validate self = Return tt ->
  validate (mkPipeline ns (links self) (instance self)) = Return tt.
Proof.
  rewrite !validate_Return_iff. simpl. rewrite !Forall_forall.
  intros Hsub H node Hin. apply H, Hsub, Hin.
Qed.

Lemma append_cancel (s a b : string) : s +:+ a = s +:+ b -> a = b.
Proof.
  induction s as [|c s IH]; simpl; [done|]. intros [= H]. by apply IH.
Qed.

(** X4.  For a node that is neither INPUT nor OUTPUT the check tests the
    sources first.  It raises "Node <label> not linked in" exactly when the
    number is the [from_node] of no link, "Node <label> not linked out"
    exactly when the number is the [from_node] of some link and the
    [to_node] of none, and it returns exactly when the number is both. *)
Theorem other_node_check self node :
  type node <> INPUT -> type node <> OUTPUT ->
  let check :=
    validate_node (link_from_map (links self)) (link_to_map (links self))
      node in
  (check = Raise (ValueError ("Node " +:+ label node +:+ " not linked in"))
     <-> never_source (links self) (number node))
  /\ (check = Raise (ValueError ("Node " +:+ label node +:+ " not linked out"))
        <-> is_source (links self) (number node)
            /\ never_target (links self) (number node))
  /\ (check = Return tt
        <-> is_source (links self) (number node)
            /\ is_target (links self) (number node)).
Proof.
  intros Hi Ho check. unfold check.
  rewrite (validate_node_other _ _ _ Hi Ho).
  rewrite <- not_in_from_map, <- not_in_to_map, <- in_from_map, <- in_to_map.
  assert ("Node " +:+ label node +:+ " not linked in"
          <> "Node " +:+ label node +:+ " not linked out") as Hne.
  { intros H. apply append_cancel, append_cancel in H. discriminate. }
  destruct (not_in (number node) (link_from_map (links self)));
    destruct (not_in (number node) (link_to_map (links self)));
    (split; [|split]); split; intros X; try done; try (by destruct X);
    congruence.
Qed.

(** X5.  Without links [validate] returns only for the pipeline without
    nodes; otherwise it raises the error of the first node. *)
Theorem validate_without_links (ns : list (Node DataType))
    (inst : option Handle) :
  (validate (mkPipeline ns [] inst) = Return tt <-> ns = [])
  /\ (forall node rest, ns = node :: rest ->
        validate (mkPipeline ns [] inst)
        = Raise (ValueError
            match type node with
            | INPUT => "Input node " +:+ label node +:+ " not linked out"
            | OUTPUT => "Output node " +:+ label node +:+ " not linked in"
            | _ => "Node " +:+ label node +:+ " not linked in"
            end)).
Proof.
  assert (forall node rest, ns = node :: rest ->
            validate (mkPipeline ns [] inst)
            = Raise (ValueError
                match type node with
                | INPUT => "Input node " +:+ label node +:+ " not linked out"
                | OUTPUT => "Output node " +:+ label node +:+ " not linked in"
                | _ => "Node " +:+ label node +:+ " not linked in"
                end)) as Hfirst.
  { intros node rest ->. unfold validate, validate_node. simpl.
    by destruct (type node). }
  split; [|exact Hfirst].
  destruct ns as [|node rest]; [done|].
  rewrite (Hfirst node rest eq_refl). done.
Qed.

End MoreValidate.

Lemma validate_accepts_more_links_witness :
  validate (mkPipeline (DataType:=unit) (Handle:=unit) minimal_nodes
              [mkLink 1 2 []; mkLink 2 3 []; mkLink 7 9 []] None)
  = Return tt.
Proof.
  apply (validate_accepts_more_links minimal_graph [mkLink 7 9 []]).
  vm_compute. reflexivity.
Defined.

Lemma validate_accepts_fewer_nodes_witness :
  validate (mkPipeline (DataType:=unit) (Handle:=unit)
              [mkNode 3 "output" OUTPUT []; mkNode 2 "asset" ASSET []]
              [mkLink 1 2 []; mkLink 2 3 []] None)
  = Return tt.
Proof.
  apply (validate_accepts_fewer_nodes minimal_graph
           [mkNode 3 "output" OUTPUT []; mkNode 2 "asset" ASSET []]).
  - intros node Hin. unfold minimal_graph, minimal_nodes. simpl.
    rewrite !elem_of_cons in Hin. rewrite !elem_of_cons. tauto.
  - vm_compute. reflexivity.
Defined.

Lemma other_node_check_witness :
  validate_node (DataType:=unit) (link_from_map [mkLink 1 2 []])
    (link_to_map [mkLink 1 2 []]) (mkNode 2 "asset" ASSET [])
  = Raise (ValueError "Node asset not linked in").
Proof.
  apply (proj1 (other_node_check (Handle:=unit)
                  (mkPipeline [] [mkLink 1 2 []] None)
                  (mkNode 2 "asset" ASSET []) ltac:(discriminate)
                  ltac:(discriminate))).
  intros link Hin. apply list_elem_of_singleton in Hin. subst link.
  simpl. lia.
Defined.

Section MoreDicts.

Context {V : Type}.
Implicit Types (d : list (string * V)) (k : string).

Lemma dict_get_set_ne k k' (v : V) d :
  k <> k' -> dict_get k (dict_set k' v d) = dict_get k d.
Proof.
  intros Hne. induction d as [|[k0 w] d IH]; simpl.
  - by rewrite decide_False.
  - destruct (decide (k0 = k')) as [->|Hne']; simpl.
    + by rewrite !decide_False.
    + by rewrite IH.
Qed.

End MoreDicts.

Section MoreToDict.

Context {DataType Handle : Type}.
Context (asdict_Node : Node DataType -> pyval).
Implicit Types (self : Pipeline DataType Handle) (link : Link).

Lemma wire_param_inj (pm pm' : ParamMapping) :
  wire_param pm = wire_param pm' -> pm = pm'.
Proof. destruct pm, pm'. unfold wire_param. simpl. by intros [= -> ->]. Qed.

Lemma serialized_link_inj link link' :
  serialized_link link = serialized_link link' -> link = link'.
Proof.
  destruct link as [f t pms], link' as [f' t' pms']. unfold serialized_link.
  cbn [from_node to_node paramMapping]. intros [= Hpms -> ->]. f_equal.
  revert pms' Hpms. induction pms as [|pm pms IH]; intros [|pm' pms'] H;
    try done.
  rewrite !fmap_cons in H.
  pose proof (f_equal head H) as Hhd. pose proof (f_equal tail H) as Htl.
  cbn [head tail] in Hhd, Htl. apply (inj Some) in Hhd.
  f_equal; [by apply wire_param_inj|by apply IH].
Qed.

(** X6.  The serialization determines the links: two pipelines with the same
    [to_dict] have the same links, in the same order, with the same
    parameter mappings, and nodes with the same serialization. *)
Theorem to_dict_determines_links self self' :
  to_dict asdict_Node self = to_dict asdict_Node self' ->
  links self = links self'
  /\ asdict_Node <$> nodes self = asdict_Node <$> nodes self'.
Proof.
  rewrite !to_dict_Return. intros [= Hnodes Hlinks]. split; [|done].
  revert Hlinks. generalize (links self) (links self').
  induction l as [|link ls IH]; intros [|link' ls'] H; try done.
  rewrite !fmap_cons in H.
  pose proof (f_equal head H) as Hhd. pose proof (f_equal tail H) as Htl.
  cbn [head tail] in Hhd, Htl. apply (inj Some) in Hhd.
  f_equal; [by apply serialized_link_inj|by apply IH].
Qed.

(** X7.  On a link dict that has [from_node] and [to_node] and whose
    [paramMapping] is missing, [None] or the empty list, the loop body only
    moves the two numbers to [from] and [to]: there is no mapping entry to
    rename and the [paramMapping] entry stays as it is. *)
Theorem to_dict_link_without_mapping (d : pydict) (f t : pyval) :
  dict_get "from_node" d = Some f ->
  dict_get "to_node" d = Some t ->
  dict_get "paramMapping" d = None
    \/ dict_get "paramMapping" d = Some PNone
    \/ dict_get "paramMapping" d = Some (PList []) ->
  let renamed :=
    dict_set "to" t (dict_del "to_node"
      (dict_set "from" f (dict_del "from_node" d))) in
  to_dict_link (PDict d) = Return (PDict renamed)
  /\ dict_get "paramMapping" renamed = dict_get "paramMapping" d.
Proof.
  intros Hf Ht Hpm renamed.
  assert (dict_get "to_node" (dict_set "from" f (dict_del "from_node" d))
          = Some t) as Ht'.
  { by rewrite dict_get_set_ne, dict_get_del_ne. }
  assert (dict_get "paramMapping" renamed = dict_get "paramMapping" d) as Hpm'.
  { unfold renamed.
    by rewrite dict_get_set_ne, dict_get_del_ne, dict_get_set_ne,
      dict_get_del_ne. }
  split; [|done].
  unfold to_dict_link, rename_key, dict_pop. rewrite Hf. simpl.
  rewrite Ht'. simpl. fold renamed. rewrite Hpm'.
  by destruct Hpm as [->|[->| ->]].
Qed.

(** X8.  On a link dict without [from_node] the loop body raises
    [KeyError] for that key; with [from_node] and without [to_node] it
    raises [KeyError] for [to_node]. *)
Theorem to_dict_link_missing_key (d : pydict) :
  (dict_get "from_node" d = None ->
     to_dict_link (PDict d) = Raise (KeyError "from_node"))
  /\ (forall f, dict_get "from_node" d = Some f ->
        dict_get "to_node" d = None ->
        to_dict_link (PDict d) = Raise (KeyError "to_node")).
Proof.
  split.
  - intros Hf. unfold to_dict_link, rename_key, dict_pop. by rewrite Hf.
  - intros f Hf Ht. unfold to_dict_link, rename_key, dict_pop.
    rewrite Hf. simpl.
    by rewrite dict_get_set_ne, dict_get_del_ne, Ht.
Qed.

End MoreToDict.

Lemma to_dict_determines_links_witness :
  links (mkPipeline (DataType:=unit) (Handle:=unit) [] [example_link] None)
  = links (mkPipeline (DataType:=unit) (Handle:=unit) []
             [example_link] (Some tt)).
Proof.
  apply (to_dict_determines_links (fun _ => PNone)
           (mkPipeline [] [example_link] None)
           (mkPipeline [] [example_link] (Some tt))).
  reflexivity.
Defined.

Lemma to_dict_link_without_mapping_witness :
  to_dict_link
    (PDict [("from_node", PInt 1); ("to_node", PInt 2);
            ("paramMapping", PNone)])
  = Return (PDict [("paramMapping", PNone); ("from", PInt 1);
                   ("to", PInt 2)]).
Proof.
  apply (to_dict_link_without_mapping
           [("from_node", PInt 1); ("to_node", PInt 2);
            ("paramMapping", PNone)] (PInt 1) (PInt 2));
    [reflexivity|reflexivity|right; left; reflexivity].
Defined.

Lemma to_dict_link_missing_key_witness :
  to_dict_link (PDict [("from_node", PInt 1)]) = Raise (KeyError "to_node").
Proof.
  apply (proj2 (to_dict_link_missing_key [("from_node", PInt 1)]) (PInt 1));
    reflexivity.
Defined.

Section MoreStore.

Import Store.

Implicit Types (h : heap) (l : nat).

(** X9.  Over the store the loop body is not atomic: on a dict without
    [from_node] it raises and changes nothing; on a dict with [from_node]
    and without [to_node] it raises after the first renaming, and the dict
    has lost [from_node] and gained [from]. *)
Theorem to_dict_link_partial_update h l (d : list (string * val)) :
  h !! l = Some (ODict d) ->
  (dict_get "from_node" d = None ->
     to_dict_link (VRef l) h = (Raise (KeyError "from_node"), h))
  /\ (forall f, dict_get "from_node" d = Some f ->
        dict_get "to_node" d = None ->
        to_dict_link (VRef l) h
        = (Raise (KeyError "to_node"),
           <[l := ODict (dict_set "from" f (dict_del "from_node" d))]> h)).
Proof.
  intros Hl. pose proof (lookup_lt_Some _ _ _ Hl) as Hlt. split.
  - intros Hf. unfold to_dict_link, rename_key, st_bind, pop.
    by rewrite Hl, Hf.
  - intros f Hf Ht. unfold to_dict_link, rename_key, st_bind, pop, setitem.
    rewrite Hl, Hf. rewrite list_lookup_insert_eq by done.
    rewrite list_insert_insert_eq.
    rewrite list_lookup_insert_eq by done.
    by rewrite dict_get_set_ne, dict_get_del_ne, Ht.
Qed.

End MoreStore.

Lemma to_dict_link_partial_update_witness :
  Store.to_dict_link (Store.VRef 0)
    [Store.ODict [("from_node", Store.VInt 1)]]
  = (Raise (KeyError "to_node"), [Store.ODict [("from", Store.VInt 1)]]).
Proof.
  apply (proj2 (to_dict_link_partial_update
                  [Store.ODict [("from_node", Store.VInt 1)]] 0%nat
                  [("from_node", Store.VInt 1)] eq_refl) (Store.VInt 1));
    reflexivity.
Defined.

Section MoreLifecycle.

Context {DataType Handle : Type}.
Context (asdict_Node : Node DataType -> pyval).
Context (uuid4 : nat -> string).
Context (PipelineFactory_create : World -> string -> pyval -> result Handle).
Implicit Types (self saved : Pipeline DataType Handle) (w : World).

(** X10.  Whatever its outcome, [save] leaves the nodes and the links of the
    pipeline as they were; when it raises, [instance] too.  It makes at
    most one submission, added after the earlier ones, and draws at most
    one name. *)
Theorem save_changes_only_instance self w :
  let '(r, self', w') :=
    save asdict_Node uuid4 PipelineFactory_create self w in
  nodes self' = nodes self /\ links self' = links self
  /\ (forall e, r = Raise e -> self' = self)
  /\ (submitted w' = submitted w
      \/ exists name graph, submitted w' = submitted w ++ [(name, graph)])
  /\ (entropy w <= entropy w' <= S (entropy w))%nat.
Proof.
  unfold save. destruct (validate self) as [[]|e].
  - destruct (to_dict asdict_Node self) as [graph|e].
    + destruct (PipelineFactory_create _ _ graph) as [h|e]; simpl;
        repeat split; try done; try lia; right; eauto.
    + simpl. repeat split; try done; try lia. by left.
  - repeat split; try done; try lia. by left.
Qed.

Lemma save_Return_inv self w saved self' w' :
  save asdict_Node uuid4 PipelineFactory_create self w
    = (Return saved, self', w') ->
  Forall (locally_linked (links self)) (nodes self)
  /\ saved = self'
  /\ exists h graph,
       let name := "pipeline-" +:+ uuid4 (entropy w) in
       self' = set_instance self h
       /\ to_dict asdict_Node self = Return graph
       /\ PipelineFactory_create (mkWorld (S (entropy w)) (submitted w))
            name graph = Return h
       /\ w' = mkWorld (S (entropy w)) (submitted w ++ [(name, graph)]).
Proof.
  unfold save. destruct (validate self) as [[]|e] eqn:Hv; [|discriminate].
  apply validate_Return_iff in Hv.
  destruct (to_dict asdict_Node self) as [graph|e]; [|discriminate].
  destruct (PipelineFactory_create _ _ graph) as [h|e] eqn:Hc;
    [|discriminate].
  intros [= <- <- <-]. split; [done|]. split; [done|].
  exists h, graph. simpl. repeat split. exact Hc.
Qed.

(** X11.  [save] returns only if every node meets its local requirement.
    The pipeline it returns is the pipeline object itself, now holding the
    handle that the collaborator returned for the name drawn and for
    [to_dict] of the pipeline, and this submission is the one added. *)
Theorem save_returns_only_when_valid self w saved self' w' :
  save asdict_Node uuid4 PipelineFactory_create self w
    = (Return saved, self', w') ->
  Forall (locally_linked (links self)) (nodes self)
  /\ saved = self'
  /\ exists h graph,
       let name := "pipeline-" +:+ uuid4 (entropy w) in
       self' = set_instance self h
       /\ to_dict asdict_Node self = Return graph
       /\ PipelineFactory_create (mkWorld (S (entropy w)) (submitted w))
            name graph = Return h
       /\ w' = mkWorld (S (entropy w)) (submitted w ++ [(name, graph)]).
Proof. apply save_Return_inv. Qed.

(** X12.  [save] on a saved pipeline submits again: the same graph goes to
    the collaborator under the next name, after the first submission, and
    the handle it returns replaces the first one; if it raises, the first
    handle stays. *)
Theorem save_again_resubmits self w saved w1 :
  save asdict_Node uuid4 PipelineFactory_create self w
    = (Return saved, saved, w1) ->
  exists graph,
    let name1 := "pipeline-" +:+ uuid4 (entropy w) in
    let name2 := "pipeline-" +:+ uuid4 (S (entropy w)) in
    let w2 :=
      mkWorld (S (S (entropy w)))
        (submitted w ++ [(name1, graph); (name2, graph)]) in
    to_dict asdict_Node self = Return graph
    /\ save asdict_Node uuid4 PipelineFactory_create saved w1
       = match PipelineFactory_create
                 (mkWorld (S (S (entropy w))) (submitted w ++ [(name1, graph)]))
                 name2 graph with
         | Return h => (Return (set_instance self h), set_instance self h, w2)
         | Raise e => (Raise e, saved, w2)
         end.
Proof.
  intros Hsave.
  destruct (save_Return_inv _ _ _ _ _ Hsave)
    as (Hvalid & _ & h & graph & -> & Hd & Hc & ->).
  exists graph. simpl. split; [done|].
  apply validate_Return_iff in Hvalid.
  unfold save.
  change (validate (set_instance self h)) with (validate self).
  change (to_dict asdict_Node (set_instance self h))
    with (to_dict asdict_Node self).
  rewrite Hvalid, Hd. simpl. rewrite <- app_assoc. simpl.
  by destruct (PipelineFactory_create _ _ graph).
Qed.

End MoreLifecycle.

Lemma save_returns_only_when_valid_witness :
  Forall (locally_linked (DataType:=unit) [mkLink 1 2 []; mkLink 2 3 []])
    minimal_nodes.
Proof.
  assert (exists graph,
            save (fun _ : Node unit => PNone) (fun _ => "0")
              (fun _ _ _ => Return tt) minimal_graph (mkWorld 0 [])
            = (Return (set_instance minimal_graph tt),
               set_instance minimal_graph tt,
               mkWorld 1 [("pipeline-0", graph)])) as [graph Hsave].
  { eexists. vm_compute. reflexivity. }
  exact (proj1 (save_returns_only_when_valid _ _ _ _ _ _ _ _ Hsave)).
Defined.

Lemma save_again_resubmits_witness :
  let graph :=
    PDict [("nodes", PList [PNone; PNone; PNone]);
           ("links",
            PList [PDict [("paramMapping", PList []); ("from", PInt 1);
                          ("to", PInt 2)];
                   PDict [("paramMapping", PList []); ("from", PInt 2);
                          ("to", PInt 3)]])] in
  save (fun _ : Node unit => PNone) (fun _ => "0")
    (fun _ _ _ => Return tt) (set_instance minimal_graph tt)
    (mkWorld 1 [("pipeline-0", graph)])
  = (Return (set_instance minimal_graph tt), set_instance minimal_graph tt,
     mkWorld 2 [("pipeline-0", graph); ("pipeline-0", graph)]).
Proof.
  intros graph.
  destruct (save_again_resubmits (fun _ : Node unit => PNone) (fun _ => "0")
              (fun _ _ _ => Return tt) minimal_graph (mkWorld 0 [])
              (set_instance minimal_graph tt)
              (mkWorld 1 [("pipeline-0", graph)]) eq_refl)
    as (graph' & Hd & H).
  injection Hd as <-. exact H.
Defined.

(** * Properties of the model factory *)

Section ModelFactoryProperties.

Import ModelFactory.

Context {Model : Type}.
Context (mkModel : json -> json -> json -> json -> Model).
Context (cls : Config).
Context (urljoin : string -> string -> string).
Context (format : json -> string).
Context (json_dumps : json -> string).
Context (serve : list Request -> Request -> outcome json).

Implicit Types (d : list (string * json)) (log : list Request).

Lemma dict_set_absent {V} (k : string) (v : V) (d : list (string * V)) :
  dict_get k d = None -> dict_set k v d = d ++ [(k, v)].
Proof.
  induction d as [|[k0 w] d IH]; simpl; [done|].
  destruct (decide (k0 = k)); [done|]. intros H. by rewrite IH.
Qed.

(** The dict a response is after [_create_model_from_response]. *)
Lemma create_response_after d :
  (_create_model_from_response mkModel cls (JObj d)).2
  = JObj (match dict_get "api_key" d with
          | Some _ => d
          | None => d ++ [("api_key", JStr (api_key cls))]
          end).
Proof.
  unfold _create_model_from_response. simpl.
  destruct (dict_get "api_key" d) eqn:E; simpl; [done|].
  by rewrite dict_set_absent.
Qed.

Lemma create_complete d id name sd supplier_id :
  dict_get "id" d = Some id ->
  dict_get "name" d = Some name ->
  dict_get "supplier" d = Some (JObj sd) ->
  dict_get "id" sd = Some supplier_id ->
  _create_model_from_response mkModel cls (JObj d)
  = match dict_get "api_key" d with
    | Some key => (Ok (mkModel id name supplier_id key), JObj d)
    | None =>
        (Ok (mkModel id name supplier_id (JStr (api_key cls))),
         JObj (d ++ [("api_key", JStr (api_key cls))]))
    end.
Proof.
  intros Hid Hname Hsup Hsid. unfold _create_model_from_response. simpl.
  destruct (dict_get "api_key" d) as [key|] eqn:Hkey; simpl.
  - unfold getitem. rewrite Hid, Hname, Hsup. simpl. rewrite Hsid, Hkey.
    reflexivity.
  - unfold getitem.
    rewrite (dict_get_set_ne "id"), (dict_get_set_ne "name"),
      (dict_get_set_ne "supplier") by done.
    rewrite Hid, Hname, Hsup. simpl.
    rewrite Hsid, dict_get_set_eq. simpl. by rewrite dict_set_absent.
Qed.

(** X13.  From a response with [id], [name] and a [supplier] that has an
    [id], [_create_model_from_response] builds the model of these three and
    of the response's [api_key]; a response without [api_key] gets the
    team key, for the model and as a new last entry of the response
    itself. *)
Theorem create_model_from_complete_response d id name sd supplier_id :
  dict_get "id" d = Some id ->
  dict_get "name" d = Some name ->
  dict_get "supplier" d = Some (JObj sd) ->
  dict_get "id" sd = Some supplier_id ->
  _create_model_from_response mkModel cls (JObj d)
  = match dict_get "api_key" d with
    | Some key => (Ok (mkModel id name supplier_id key), JObj d)
    | None =>
        (Ok (mkModel id name supplier_id (JStr (api_key cls))),
         JObj (d ++ [("api_key", JStr (api_key cls))]))
    end.
Proof. apply create_complete. Qed.

(** X14.  On a response object [_create_model_from_response] raises
    [KeyError] for the first of [id], [name], [supplier] that is missing,
    then for the supplier's [id], and [TypeError] when the supplier is no
    object; in each case the response has already been given its
    [api_key]. *)
Theorem create_model_from_incomplete_response d :
  let r := _create_model_from_response mkModel cls (JObj d) in
  (dict_get "id" d = None -> r.1 = Err (KeyError "id"))
  /\ (forall id, dict_get "id" d = Some id -> dict_get "name" d = None ->
        r.1 = Err (KeyError "name"))
  /\ (forall id name, dict_get "id" d = Some id ->
        dict_get "name" d = Some name -> dict_get "supplier" d = None ->
        r.1 = Err (KeyError "supplier"))
  /\ (forall id name supplier, dict_get "id" d = Some id ->
        dict_get "name" d = Some name ->
        dict_get "supplier" d = Some supplier ->
        (forall sd, supplier = JObj sd -> dict_get "id" sd = None ->
           r.1 = Err (KeyError "id"))
        /\ ((forall sd, supplier <> JObj sd) -> r.1 = Err TypeError))
  /\ r.2 = JObj (match dict_get "api_key" d with
                 | Some _ => d
                 | None => d ++ [("api_key", JStr (api_key cls))]
                 end).
Proof.
  intros r.
  assert (r.1 =
          (id ← getitem (JObj d) "id";
           name ← getitem (JObj d) "name";
           supplier ← getitem (JObj d) "supplier";
           supplier_id ← getitem supplier "id";
           Ok (mkModel id name supplier_id
                 (default (JStr (api_key cls)) (dict_get "api_key" d)))))
    as Hr.
  { unfold r, _create_model_from_response. simpl.
    destruct (dict_get "api_key" d) as [key|] eqn:Hkey; simpl;
      unfold getitem;
      rewrite ?(dict_get_set_ne "id"), ?(dict_get_set_ne "name"),
        ?(dict_get_set_ne "supplier"), ?dict_get_set_eq, ?Hkey by done;
      destruct (dict_get "id" d), (dict_get "name" d),
        (dict_get "supplier" d) as [[| | | | | |sd]|]; simpl; try done;
      by destruct (dict_get "id" sd). }
  split; [|split; [|split; [|split]]].
  - intros Hid. rewrite Hr. unfold getitem. by rewrite Hid.
  - intros id Hid Hname. rewrite Hr. unfold getitem. by rewrite Hid, Hname.
  - intros id name Hid Hname Hsup. rewrite Hr. unfold getitem.
    by rewrite Hid, Hname, Hsup.
  - intros id name supplier Hid Hname Hsup. rewrite Hr. unfold getitem.
    rewrite Hid, Hname, Hsup. simpl. split.
    + intros sd -> Hsid. by rewrite Hsid.
    + intros Hno. destruct supplier as [| | | | | |sd]; try done.
      by destruct (Hno sd).
  - apply create_response_after.
Qed.

(** X15.  On a response that is no object [_create_model_from_response]
    raises [TypeError] and leaves the response as it is. *)
Theorem create_model_from_non_object response :
  (forall d, response <> JObj d) ->
  _create_model_from_response mkModel cls response = (Err TypeError, response).
Proof.
  intros Hno. unfold _create_model_from_response.
  destruct response as [| | | |s|l|d]; try done.
  - simpl. by destruct (is_infix "api_key" s).
  - simpl. by destruct (existsb _ l).
  - by destruct (Hno d).
Qed.

(** *** [get] *)

Lemma create_with_key d key :
  dict_get "api_key" d = Some key ->
  (_create_model_from_response mkModel cls (JObj d)).2 = JObj d.
Proof. intros H. by rewrite create_response_after, H. Qed.

Lemma keyed_api_key d key :
  dict_get "api_key" (keyed cls d key)
  = Some (JStr (default (api_key cls) key)).
Proof. destruct key; simpl; apply dict_get_set_eq. Qed.

Lemma keyed_other d key k :
  k <> "api_key" -> dict_get k (keyed cls d key) = dict_get k d.
Proof.
  intros Hk. destruct key; simpl; by rewrite ?dict_get_set_ne by done.
Qed.

Lemma get_on_object model_id key log d :
  serve log (mkRequest "get"
               (urljoin (backend_url cls) ("sdk/models/" +:+ model_id))
               (auth_headers cls) None None) = Ok (JObj d) ->
  get mkModel cls urljoin format serve model_id key log
  = (match (_create_model_from_response mkModel cls
              (JObj (keyed cls d key))).1 with
     | Ok model => Ok model
     | Err _ => Err (creation_error format (JObj (keyed cls d key)))
     end,
     log ++ [mkRequest "get"
               (urljoin (backend_url cls) ("sdk/models/" +:+ model_id))
               (auth_headers cls) None None]).
Proof.
  intros Hserve. unfold get. rewrite Hserve. simpl.
  pose proof (create_with_key (keyed cls d key) _ (keyed_api_key d key))
    as Hafter.
  unfold keyed in *. destruct key as [k|]; simpl in *;
    destruct (_create_model_from_response _ _ _) as [[model|e] resp];
    simpl in *; by subst.
Qed.

(** X16.  When the backend answers [get] with an object that has [id],
    [name] and a [supplier] with an [id], [get] makes this one request and
    returns the model of these three with the key given to [get], or with
    the team key when none is given: an [api_key] in the answer is never
    used. *)
Theorem get_uses_the_given_key model_id key log d id name sd supplier_id :
  let request :=
    mkRequest "get" (urljoin (backend_url cls) ("sdk/models/" +:+ model_id))
      (auth_headers cls) None None in
  serve log request = Ok (JObj d) ->
  dict_get "id" d = Some id ->
  dict_get "name" d = Some name ->
  dict_get "supplier" d = Some (JObj sd) ->
  dict_get "id" sd = Some supplier_id ->
  get mkModel cls urljoin format serve model_id key log
  = (Ok (mkModel id name supplier_id (JStr (default (api_key cls) key))),
     log ++ [request]).
Proof.
  intros request Hserve Hid Hname Hsup Hsid.
  rewrite (get_on_object _ _ _ _ Hserve). fold request.
  rewrite (create_complete (keyed cls d key) id name sd supplier_id);
    rewrite ?keyed_other by done; try done.
  by rewrite keyed_api_key.
Qed.

(** X17.  When the request of [get] fails, [get] raises the exception
    "Model Creation: Unspecified Error".  When the answer is an object from
    which no model can be built, it raises the same unless the answer has
    a [statusCode]: then the message gives the status and the answer's
    [message], and an answer with [statusCode] and without [message] makes
    the handler itself fail with [KeyError]. *)
Theorem get_reports_failure model_id key log :
  let request :=
    mkRequest "get" (urljoin (backend_url cls) ("sdk/models/" +:+ model_id))
      (auth_headers cls) None None in
  let result := get mkModel cls urljoin format serve model_id key log in
  (forall e, serve log request = Err e ->
     result = (Err (Exception "Model Creation: Unspecified Error"),
               log ++ [request]))
  /\ (forall d e, serve log request = Ok (JObj d) -> result.1 = Err e ->
        e = match dict_get "statusCode" d with
            | None => Exception "Model Creation: Unspecified Error"
            | Some status_code =>
                match dict_get "message" d with
                | Some message =>
                    Exception ("Model Creation: Status "
                               +:+ format status_code +:+ " - "
                               +:+ format message)
                | None => KeyError "message"
                end
            end).
Proof.
  intros request result. split.
  - intros e He. unfold result, get. fold request. by rewrite He.
  - intros d e Hserve. unfold result. rewrite (get_on_object _ _ _ _ Hserve).
    simpl. destruct (_create_model_from_response _ _ _).1; [done|].
    intros [= <-]. unfold creation_error, contains, getitem.
    rewrite !keyed_other by done.
    destruct (dict_get "statusCode" d); [|done].
    by destruct (dict_get "message" d).
Qed.

Lemma creation_error_cases resp :
  (exists msg, creation_error format resp = Exception msg)
  \/ creation_error format resp = KeyError "message"
  \/ creation_error format resp = TypeError.
Proof.
  unfold creation_error.
  destruct resp as [| | | |s|l|d]; simpl; eauto.
  - destruct (is_infix "statusCode" s); eauto.
  - destruct (existsb _ l); eauto.
  - destruct (dict_get "statusCode" d); eauto.
    destruct (dict_get "message" d); eauto.
Qed.

(** X18.  Whatever the backend answers, [get] makes exactly one request,
    and what it raises is an [Exception] with a message, or the [KeyError]
    for [message] or a [TypeError] raised inside its handler. *)
Theorem get_raises_only model_id key log :
  (get mkModel cls urljoin format serve model_id key log).2
  = log ++ [mkRequest "get"
              (urljoin (backend_url cls) ("sdk/models/" +:+ model_id))
              (auth_headers cls) None None]
  /\ forall e,
       (get mkModel cls urljoin format serve model_id key log).1 = Err e ->
       (exists msg, e = Exception msg) \/ e = KeyError "message"
       \/ e = TypeError.
Proof.
  unfold get.
  match goal with
  | |- context [let '(tried, resp) := ?m in _] =>
      destruct m as [[model|e0] resp]
  end; simpl.
  - split; [done|]. discriminate.
  - split; [done|]. intros e [= <-]. apply creation_error_cases.
Qed.

(** *** [get_assets_from_page] and [get_first_k_assets] *)

Lemma mapM_Ok_Forall2 {A B} (f : A -> outcome B) (l : list A) (r : list B) :
  mapM f l = Ok r -> Forall2 (fun a b => f a = Ok b) l r.
Proof.
  revert r. induction l as [|a l IH]; intros r; cbn [mapM].
  - intros [= <-]. constructor.
  - destruct (f a) as [b|e] eqn:Ea; [|discriminate]. simpl.
    destruct (mapM f l) as [r'|e]; [|discriminate]. simpl.
    intros [= <-]. constructor; [done|]. by apply IH.
Qed.

(** X19.  For a task other than "translation", [get_assets_from_page] does
    not use [output_language]: the request made and the models returned
    are those of the call without it. *)
Theorem page_ignores_output_language page_number task input_language
    output_language log :
  task <> "translation" ->
  get_assets_from_page mkModel cls urljoin format json_dumps serve
    page_number task input_language (Some output_language) log
  = get_assets_from_page mkModel cls urljoin format json_dumps serve
      page_number task input_language None log.
Proof.
  intros Htask. unfold get_assets_from_page, page_request, filter_params.
  by rewrite !decide_False.
Qed.

(** X20.  [get_assets_from_page] makes one request and never raises.  It
    returns either no model, or one model for each element of the answer's
    [items], in their order: a single element from which no model can be
    built loses the whole page. *)
Theorem page_is_all_or_nothing page_number task input_language
    output_language log :
  let request :=
    page_request cls urljoin format json_dumps page_number task
      input_language output_language in
  let result :=
    get_assets_from_page mkModel cls urljoin format json_dumps serve
      page_number task input_language output_language log in
  result.2 = log ++ [request]
  /\ (result.1 = []
      \/ exists resp all_models infos,
           serve log request = Ok resp
           /\ getitem resp "items" = Ok all_models
           /\ iterate all_models = Ok infos
           /\ Forall2
                (fun info model =>
                   (_create_model_from_response mkModel cls info).1 = Ok model)
                infos result.1).
Proof.
  intros request result. split; [done|].
  unfold result, get_assets_from_page. fold request.
  destruct (serve log request) as [resp|e] eqn:E1; simpl; [|by left].
  destruct (getitem resp "items") as [all_models|e] eqn:E2; simpl;
    [|by left].
  destruct (iterate all_models) as [infos|e] eqn:E3; simpl; [|by left].
  destruct (mapM _ infos) as [models|e] eqn:E; simpl; [|by left].
  right. exists resp, all_models, infos. repeat split; try done.
  by apply mapM_Ok_Forall2.
Qed.

Lemma get_pages_log pages task input_language output_language log :
  (get_pages mkModel cls urljoin format json_dumps serve pages task
     input_language output_language log).2
  = log ++ ((fun page_number =>
               page_request cls urljoin format json_dumps page_number task
                 input_language output_language) <$> pages).
Proof.
  revert log. induction pages as [|page pages IH]; intros log; simpl.
  - by rewrite app_nil_r.
  - specialize (IH (log ++ [page_request cls urljoin format json_dumps page
                              task input_language output_language])).
    destruct (get_pages _ _ _ _ _ _ pages _ _ _ _) as [rest log']. simpl in *.
    by rewrite IH, <- app_assoc.
Qed.

Lemma get_pages_length pages task input_language output_language log :
  (forall page_number log,
     (10 <= length (get_assets_from_page mkModel cls urljoin format
                      json_dumps serve page_number task input_language
                      output_language log).1)%nat) ->
  (10 * length pages
   <= length (get_pages mkModel cls urljoin format json_dumps serve pages
                task input_language output_language log).1)%nat.
Proof.
  intros Hfull. revert log.
  induction pages as [|page pages IH]; intros log; cbn [get_pages];
    [simpl; lia|].
  specialize (Hfull page log).
  destruct (get_assets_from_page _ _ _ _ _ _ page _ _ _ log)
    as [models log1].
  specialize (IH log1).
  destruct (get_pages _ _ _ _ _ _ pages _ _ _ log1) as [rest log2].
  cbn [fst length] in *. rewrite length_app. lia.
Qed.

(** X21.  For [k <= 0] the assertion of [get_first_k_assets] fails and is
    swallowed: the result is the empty list and no request is made. *)
Theorem first_k_of_nothing k task input_language output_language log :
  k <= 0 ->
  get_first_k_assets mkModel cls urljoin format json_dumps serve k task
    input_language output_language log
  = ([], log).
Proof.
  intros Hk. unfold get_first_k_assets. by rewrite decide_False by lia.
Qed.

(** X22.  For [k > 0], [get_first_k_assets] requests the pages 0 to
    [k // 10], in this order and each once, and returns at most [k]
    models. *)
Theorem first_k_requests_pages k task input_language output_language log :
  0 < k ->
  let result :=
    get_first_k_assets mkModel cls urljoin format json_dumps serve k task
      input_language output_language log in
  result.2
  = log ++ ((fun page_number =>
               page_request cls urljoin format json_dumps page_number task
                 input_language output_language) <$> seqZ 0 (k / 10 + 1))
  /\ length (seqZ 0 (k / 10 + 1)) = Z.to_nat (k / 10 + 1)
  /\ (length result.1 <= Z.to_nat k)%nat.
Proof.
  intros Hk result. unfold result, get_first_k_assets.
  rewrite decide_True by done.
  pose proof (get_pages_log (seqZ 0 (k / 10 + 1)) task input_language
                output_language log) as Hlog.
  destruct (get_pages _ _ _ _ _ _ _ _ _ _ _) as [models log']. simpl in *.
  split; [done|]. split; [apply length_seqZ|].
  rewrite length_take. lia.
Qed.

(** X23.  If every page holds at least 10 models, [get_first_k_assets]
    returns exactly [k] models for [k > 0]. *)
Theorem first_k_of_full_pages k task input_language output_language log :
  0 < k ->
  (forall page_number log,
     (10 <= length (get_assets_from_page mkModel cls urljoin format
                      json_dumps serve page_number task input_language
                      output_language log).1)%nat) ->
  length (get_first_k_assets mkModel cls urljoin format json_dumps serve k
            task input_language output_language log).1
  = Z.to_nat k.
Proof.
  intros Hk Hfull. unfold get_first_k_assets. rewrite decide_True by done.
  pose proof (get_pages_length (seqZ 0 (k / 10 + 1)) task input_language
                output_language log Hfull) as Hlen.
  destruct (get_pages _ _ _ _ _ _ _ _ _ _ _) as [models log']. simpl in *.
  rewrite length_take, length_seqZ in *.
  pose proof (Z.div_mod k 10 ltac:(lia)).
  pose proof (Z.mod_pos_bound k 10 ltac:(lia)).
  lia.
Qed.

End ModelFactoryProperties.

(** The model factory on concrete answers of the backend: a model is the
    tuple of the arguments of its constructor, every request is answered
    alike. *)

Lemma create_model_from_complete_response_witness :
  ModelFactory._create_model_from_response
    (fun a b c d => (a, b, c, d)) ModelFactory.example_config
    ModelFactory.example_info
  = (ModelFactory.Ok
       (ModelFactory.JStr "m1", ModelFactory.JStr "model one",
        ModelFactory.JStr "s1", ModelFactory.JStr "team-key"),
     ModelFactory.JObj
       [("id", ModelFactory.JStr "m1");
        ("name", ModelFactory.JStr "model one");
        ("supplier", ModelFactory.JObj [("id", ModelFactory.JStr "s1")]);
        ("api_key", ModelFactory.JStr "team-key")]).
Proof.
  apply (create_model_from_complete_response (fun a b c d => (a, b, c, d))
           ModelFactory.example_config
           [("id", ModelFactory.JStr "m1");
            ("name", ModelFactory.JStr "model one");
            ("supplier", ModelFactory.JObj [("id", ModelFactory.JStr "s1")])]
           (ModelFactory.JStr "m1") (ModelFactory.JStr "model one")
           [("id", ModelFactory.JStr "s1")] (ModelFactory.JStr "s1"));
    reflexivity.
Defined.

Lemma create_model_from_incomplete_response_witness :
  (ModelFactory._create_model_from_response
     (fun a b c d => (a, b, c, d)) ModelFactory.example_config
     (ModelFactory.JObj [("id", ModelFactory.JStr "m1")])).1
  = ModelFactory.Err (ModelFactory.KeyError "name").
Proof.
  apply (proj1 (proj2 (create_model_from_incomplete_response
                         (fun a b c d => (a, b, c, d))
                         ModelFactory.example_config
                         [("id", ModelFactory.JStr "m1")]))
           (ModelFactory.JStr "m1"));
    reflexivity.
Defined.

Lemma create_model_from_non_object_witness :
  ModelFactory._create_model_from_response
    (fun a b c d => (a, b, c, d)) ModelFactory.example_config
    (ModelFactory.JStr "api_key")
  = (ModelFactory.Err ModelFactory.TypeError, ModelFactory.JStr "api_key").
Proof.
  apply (create_model_from_non_object (fun a b c d => (a, b, c, d))
           ModelFactory.example_config (ModelFactory.JStr "api_key")).
  discriminate.
Defined.

Lemma get_uses_the_given_key_witness :
  (ModelFactory.get (fun a b c d => (a, b, c, d)) ModelFactory.example_config
     String.append (fun _ => "?")
     (fun _ _ =>
        ModelFactory.Ok
          (ModelFactory.JObj
             [("id", ModelFactory.JStr "m1");
              ("name", ModelFactory.JStr "model one");
              ("supplier", ModelFactory.JObj [("id", ModelFactory.JStr "s1")]);
              ("api_key", ModelFactory.JStr "from the backend")]))
     "m1" (Some "mine") []).1
  = ModelFactory.Ok
      (ModelFactory.JStr "m1", ModelFactory.JStr "model one",
       ModelFactory.JStr "s1", ModelFactory.JStr "mine").
Proof.
  pose (answer :=
    [("id", ModelFactory.JStr "m1");
     ("name", ModelFactory.JStr "model one");
     ("supplier", ModelFactory.JObj [("id", ModelFactory.JStr "s1")]);
     ("api_key", ModelFactory.JStr "from the backend")]).
  apply (f_equal fst
           (get_uses_the_given_key (fun a b c d => (a, b, c, d))
              ModelFactory.example_config String.append (fun _ => "?")
              (fun _ _ => ModelFactory.Ok (ModelFactory.JObj answer))
              "m1" (Some "mine") [] answer
              (ModelFactory.JStr "m1") (ModelFactory.JStr "model one")
              [("id", ModelFactory.JStr "s1")] (ModelFactory.JStr "s1")
              eq_refl eq_refl eq_refl eq_refl eq_refl)).
Defined.

Lemma get_reports_failure_witness :
  ModelFactory.get (fun a b c d => (a, b, c, d)) ModelFactory.example_config
    String.append (fun _ => "?")
    (fun _ _ => ModelFactory.Err (ModelFactory.RequestError "timeout"))
    "m1" None []
  = (ModelFactory.Err
       (ModelFactory.Exception "Model Creation: Unspecified Error"),
     [ModelFactory.mkRequest "get" "https://backend/sdk/models/m1"
        [("Authorization", "Token team-key");
         ("Content-Type", "application/json")] None None]).
Proof.
  apply (proj1 (get_reports_failure (fun a b c d => (a, b, c, d))
                  ModelFactory.example_config String.append (fun _ => "?")
                  (fun _ _ =>
                     ModelFactory.Err (ModelFactory.RequestError "timeout"))
                  "m1" None [])
           (ModelFactory.RequestError "timeout")).
  reflexivity.
Defined.

Lemma page_ignores_output_language_witness :
  ModelFactory.get_assets_from_page (fun a b c d => (a, b, c, d))
    ModelFactory.example_config String.append (fun _ => "?")
    (fun _ => "[]") (fun _ _ => ModelFactory.Ok ModelFactory.example_page)
    0 "speech-recognition" None (Some "fr") []
  = ModelFactory.get_assets_from_page (fun a b c d => (a, b, c, d))
      ModelFactory.example_config String.append (fun _ => "?")
      (fun _ => "[]") (fun _ _ => ModelFactory.Ok ModelFactory.example_page)
      0 "speech-recognition" None None [].
Proof.
  apply (page_ignores_output_language (fun a b c d => (a, b, c, d))
           ModelFactory.example_config String.append (fun _ => "?")
           (fun _ => "[]")
           (fun _ _ => ModelFactory.Ok ModelFactory.example_page)
           0 "speech-recognition" None "fr" []).
  discriminate.
Defined.

Lemma first_k_of_nothing_witness :
  ModelFactory.get_first_k_assets (fun a b c d => (a, b, c, d))
    ModelFactory.example_config String.append (fun _ => "?")
    (fun _ => "[]") (fun _ _ => ModelFactory.Ok ModelFactory.example_page)
    0 "translation" None None []
  = ([], []).
Proof.
  apply (first_k_of_nothing (fun a b c d => (a, b, c, d))
           ModelFactory.example_config String.append (fun _ => "?")
           (fun _ => "[]")
           (fun _ _ => ModelFactory.Ok ModelFactory.example_page)
           0 "translation" None None []).
  lia.
Defined.

Lemma first_k_requests_pages_witness :
  length
    (ModelFactory.get_first_k_assets (fun a b c d => (a, b, c, d))
       ModelFactory.example_config String.append (fun _ => "?")
       (fun _ => "[]") (fun _ _ => ModelFactory.Ok ModelFactory.example_page)
       10 "translation" None None []).2
  = 2%nat.
Proof.
  rewrite (proj1 (first_k_requests_pages (fun a b c d => (a, b, c, d))
                    ModelFactory.example_config String.append (fun _ => "?")
                    (fun _ => "[]")
                    (fun _ _ => ModelFactory.Ok ModelFactory.example_page)
                    10 "translation" None None [] ltac:(lia))).
  reflexivity.
Defined.

Lemma first_k_of_full_pages_witness :
  length
    (ModelFactory.get_first_k_assets (fun a b c d => (a, b, c, d))
       ModelFactory.example_config String.append (fun _ => "?")
       (fun _ => "[]") (fun _ _ => ModelFactory.Ok ModelFactory.example_page)
       15 "translation" None None []).1
  = 15%nat.
Proof.
  apply (first_k_of_full_pages (fun a b c d => (a, b, c, d))
           ModelFactory.example_config String.append (fun _ => "?")
           (fun _ => "[]")
           (fun _ _ => ModelFactory.Ok ModelFactory.example_page)
           15 "translation" None None []); [lia|].
  intros page_number log. vm_compute. lia.
Defined.

(** * The enumerations *)

(** X24.  In each of [RouteType], [Operation] and [NodeType] the members
    carry pairwise different strings: no member is an alias of another, and
    the string decides the member. *)
Theorem enumeration_values_are_distinct :
  (forall a b, RouteType_value a = RouteType_value b -> a = b)
  /\ (forall a b, Operation_value a = Operation_value b -> a = b)
  /\ (forall a b, NodeType_value a = NodeType_value b -> a = b).
Proof.
  repeat split; intros [] []; simpl; intros H;
    first [reflexivity | discriminate H].
Qed.

(** * Pipelines side by side *)

Section ValidateUnion.

Context {DataType Handle : Type}.
Implicit Types (self other : Pipeline DataType Handle).

Lemma locally_linked_earlier_links (ls extra : list Link)
    (node : Node DataType) :
  locally_linked ls node -> locally_linked (extra ++ ls) node.
Proof.
  assert (forall n, is_source ls n -> is_source (extra ++ ls) n) as Hs.
  { intros n (link & Hin & Heq). exists link. split; [|done].
    apply elem_of_app. by right. }
  assert (forall n, is_target ls n -> is_target (extra ++ ls) n) as Ht.
  { intros n (link & Hin & Heq). exists link. split; [|done].
    apply elem_of_app. by right. }
  unfold locally_linked.
  destruct (type node); intros Hl; try (destruct Hl; split); auto.
Qed.

(** X25.  Two pipelines that pass [validate] still pass when put together,
    nodes after nodes and links after links, whatever [instance] is and even
    when they share no link: [validate] accepts a graph made of separate
    parts. *)
Theorem validate_accepts_union self other (inst : option Handle) :
  validate self = Return tt ->
  validate other = Return tt ->
  validate (mkPipeline (nodes self ++ nodes other)
              (links self ++ links other) inst)
  = Return tt.
Proof.
  rewrite !validate_Return_iff. simpl. intros Hself Hother.
  apply Forall_app. split.
  - eapply Forall_impl; [exact Hself|]. intros node.
    apply locally_linked_more_links.
  - eapply Forall_impl; [exact Hother|]. intros node.
    apply locally_linked_earlier_links.
Qed.

End ValidateUnion.

Lemma validate_accepts_union_witness :
  validate (mkPipeline (DataType:=unit) (Handle:=unit)
              (minimal_nodes ++ [mkNode 8 "loop" SCRIPT []])
              ([mkLink 1 2 []; mkLink 2 3 []] ++ [mkLink 8 8 []]) None)
  = Return tt.
Proof.
  apply (validate_accepts_union minimal_graph
           (mkPipeline [mkNode 8 "loop" SCRIPT []] [mkLink 8 8 []] None)
           None); vm_compute; reflexivity.
Defined.
